(** * EscrowMarketplace: a shallow embedding of the OP_NET escrow contract

    The contract of [src/escrow/EscrowMarketplace.ts] keeps every order in a
    flat persistent store.  The store, the caller, the block height and the
    checked arithmetic come from the runtime the contract is linked with;
    they are modelled here as the interface documents them.  The eight
    contract methods are translated statement by statement into a small
    state-and-abort monad over that store. *)

From Stdlib Require Import ZArith List Lia Bool String.
From stdpp Require Import base option gmap.
Import ListNotations.
Local Open Scope Z_scope.

(** ** Machine integers *)

Definition U64_MAX : Z := 2 ^ 64 - 1.
Definition U256_MAX : Z := 2 ^ 256 - 1.

Definition is_u64 (x : Z) : Prop := 0 <= x <= U64_MAX.
Definition is_u256 (x : Z) : Prop := 0 <= x <= U256_MAX.

(** 64-bit arithmetic wraps; the casts [u16(...)] and [u8(...)] keep the
    low bits. *)
Definition wrap64 (x : Z) : Z := x mod 2 ^ 64.
Definition u16 (x : Z) : Z := x mod 2 ^ 16.
Definition u8 (x : Z) : Z := x mod 2 ^ 8.

(** [u256.toU64()] keeps the low 64-bit limb, [u256.fromU64] embeds. *)
Definition toU64 (v : Z) : Z := v mod 2 ^ 64.
Definition fromU64 (x : Z) : Z := x.

(** An address is a 32-byte value, read as a number; unwritten address
    slots read as the zero address. *)
Definition Address : Type := Z.
Definition Address_zero : Address := 0.
Definition Address_equals (a b : Address) : bool := a =? b.

(** ** Order states *)

Definition STATE_CREATED : Z := 1.
Definition STATE_ACCEPTED : Z := 2.
Definition STATE_FUNDED : Z := 3.
Definition STATE_COMPLETED : Z := 4.
Definition STATE_CANCELLED : Z := 5.
Definition STATE_DISPUTED : Z := 6.

(** ** Pointer helpers *)

(** [subPtr]: a 32-byte buffer, zero but for its last eight bytes, which
    hold [orderId] most significant byte first. *)
Definition subPtr (orderId : Z) : list Z :=
  repeat 0 24 ++
  [ u8 (Z.land (Z.shiftr orderId 56) 255);
    u8 (Z.land (Z.shiftr orderId 48) 255);
    u8 (Z.land (Z.shiftr orderId 40) 255);
    u8 (Z.land (Z.shiftr orderId 32) 255);
    u8 (Z.land (Z.shiftr orderId 24) 255);
    u8 (Z.land (Z.shiftr orderId 16) 255);
    u8 (Z.land (Z.shiftr orderId 8) 255);
    u8 (Z.land orderId 255) ].

(** [new Uint8Array(32)], the sub-pointer of the order counter. *)
Definition emptySubPtr : list Z := repeat 0 32.

Definition PTR_ORDER_COUNT : Z := 1.
Definition PTR_PRICE : Z := 10.
Definition PTR_LOCKED : Z := 11.
Definition PTR_STATE : Z := 12.
Definition PTR_DEADLINE : Z := 13.
Definition PTR_ACCEPTED_AT : Z := 14.

Definition PTR_SELLER_BASE : Z := 100.
Definition PTR_BUYER_BASE : Z := 10000.

(** The pointer of an address slot: [u16(BASE + orderId)], the sum taken
    in 64 bits and then cut to 16. *)
Definition sellerPtr (orderId : Z) : Z := u16 (wrap64 (PTR_SELLER_BASE + orderId)).
Definition buyerPtr (orderId : Z) : Z := u16 (wrap64 (PTR_BUYER_BASE + orderId)).

(** ** The persistent store *)

(** Modelled from the spec: the runtime's storage, which is not part of the
    repository.  It has two slot shapes, [wide(selector, 32-byte sub-key)]
    holding a 256-bit word and [narrow(selector)] holding an address; a slot
    never written reads as zero. *)
Inductive slot : Type :=
| Wide (pointer : Z) (subPointer : list Z)
| Narrow (pointer : Z).

Record Store : Type := mkStore {
  wide : gmap (Z * list Z) Z;
  narrow : gmap Z Address
}.

Definition StoredU256_get (pointer : Z) (subPointer : list Z) (s : Store) : Z :=
  default 0 (wide s !! (pointer, subPointer)).

Definition StoredU256_set (pointer : Z) (subPointer : list Z) (v : Z) (s : Store) : Store :=
  mkStore (<[(pointer, subPointer) := v]> (wide s)) (narrow s).

Definition StoredAddress_get (pointer : Z) (s : Store) : Address :=
  default Address_zero (narrow s !! pointer).

Definition StoredAddress_set (pointer : Z) (a : Address) (s : Store) : Store :=
  mkStore (wide s) (<[pointer := a]> (narrow s)).

Definition read_slot (k : slot) (s : Store) : Z :=
  match k with
  | Wide p sp => StoredU256_get p sp s
  | Narrow p => StoredAddress_get p s
  end.

(** ** The call environment and the abort monad *)

(** [Blockchain.tx.sender] and [Blockchain.block.number]. *)
Record Env : Type := mkEnv {
  sender : Address;
  number : Z
}.

(** A method body either returns a value and the store it leaves, or aborts
    with a message; the store at the point of the abort is kept, so that
    what was written before it stays visible to the analysis. *)
Inductive outcome (A : Type) : Type :=
| Ok (a : A) (s : Store)
| Revert (msg : string) (s : Store).
Arguments Ok {A} a s.
Arguments Revert {A} msg s.

Definition M (A : Type) : Type := Env -> Store -> outcome A.

Definition ret {A} (a : A) : M A := fun _ s => Ok a s.

Definition bind {A B} (m : M A) (k : A -> M B) : M B :=
  fun e s =>
    match m e s with
    | Ok a s' => k a e s'
    | Revert msg s' => Revert msg s'
    end.

Notation "x <- m ;; k" := (bind m (fun x => k))
  (at level 100, m at next level, right associativity).
Notation "m ;;; k" := (bind m (fun _ => k))
  (at level 100, right associativity).

Definition abort {A} (msg : string) : M A := fun _ s => Revert msg s.

Definition assert (cond : bool) (msg : string) : M unit :=
  if cond then ret tt else abort msg.

Definition load (pointer : Z) (subPointer : list Z) : M Z :=
  fun _ s => Ok (StoredU256_get pointer subPointer s) s.

Definition store (pointer : Z) (subPointer : list Z) (v : Z) : M unit :=
  fun _ s => Ok tt (StoredU256_set pointer subPointer v s).

Definition loadAddress (pointer : Z) : M Address :=
  fun _ s => Ok (StoredAddress_get pointer s) s.

Definition storeAddress (pointer : Z) (a : Address) : M unit :=
  fun _ s => Ok tt (StoredAddress_set pointer a s).

Definition tx_sender : M Address := fun e s => Ok (sender e) s.
Definition block_number : M Z := fun e s => Ok (number e) s.

(** Modelled from the spec: the runtime's checked additions, which are not
    part of the repository.  [SafeMath.add64] and [SafeMath.add] compute
    the wrapped sum and abort when it is below the first operand. *)
Definition SafeMath_add64 (a b : Z) : M Z :=
  let c := wrap64 (a + b) in
  if c <? a then abort "SafeMath: addition overflow" else ret c.

Definition SafeMath_add (a b : Z) : M Z :=
  let c := (a + b) mod 2 ^ 256 in
  if c <? a then abort "SafeMath: addition overflow" else ret c.

(** ** The contract methods *)

Definition onDeployment : M unit :=
  store PTR_ORDER_COUNT emptySubPtr 0.

Definition createOrder (price deadlineBlocks : Z) : M Z :=
  assert (0 <? price) "Price must be > 0" ;;;
  assert (6 <=? deadlineBlocks) "Deadline must be >= 6 blocks" ;;;
  count <- load PTR_ORDER_COUNT emptySubPtr ;;
  orderId <- SafeMath_add64 (toU64 count) 1 ;;
  store PTR_ORDER_COUNT emptySubPtr (fromU64 orderId) ;;;
  let ptr := subPtr orderId in
  caller <- tx_sender ;;
  storeAddress (sellerPtr orderId) caller ;;;
  store PTR_PRICE ptr price ;;;
  store PTR_LOCKED ptr 0 ;;;
  store PTR_STATE ptr (fromU64 STATE_CREATED) ;;;
  height <- block_number ;;
  deadline <- SafeMath_add64 height deadlineBlocks ;;
  store PTR_DEADLINE ptr (fromU64 deadline) ;;;
  store PTR_ACCEPTED_AT ptr 0 ;;;
  ret orderId.

Definition acceptOrder (orderId : Z) : M bool :=
  let ptr := subPtr orderId in
  state <- load PTR_STATE ptr ;;
  assert (toU64 state =? STATE_CREATED) "Order not in Created state" ;;;
  height <- block_number ;;
  deadline <- load PTR_DEADLINE ptr ;;
  assert (height <=? toU64 deadline) "Order deadline passed" ;;;
  caller <- tx_sender ;;
  storeAddress (buyerPtr orderId) caller ;;;
  store PTR_STATE ptr (fromU64 STATE_ACCEPTED) ;;;
  height' <- block_number ;;
  store PTR_ACCEPTED_AT ptr (fromU64 height') ;;;
  ret true.

Definition fundOrder (orderId : Z) : M bool :=
  let ptr := subPtr orderId in
  state <- load PTR_STATE ptr ;;
  assert (toU64 state =? STATE_ACCEPTED) "Order not in Accepted state" ;;;
  buyer <- loadAddress (buyerPtr orderId) ;;
  caller <- tx_sender ;;
  assert (Address_equals buyer caller) "Only buyer can fund" ;;;
  price <- load PTR_PRICE ptr ;;
  store PTR_LOCKED ptr price ;;;
  store PTR_STATE ptr (fromU64 STATE_FUNDED) ;;;
  ret true.

Definition confirmCompletion (orderId : Z) : M bool :=
  let ptr := subPtr orderId in
  state <- load PTR_STATE ptr ;;
  assert (toU64 state =? STATE_FUNDED) "Order not in Funded state" ;;;
  buyer <- loadAddress (buyerPtr orderId) ;;
  caller <- tx_sender ;;
  assert (Address_equals buyer caller) "Only buyer can confirm" ;;;
  store PTR_LOCKED ptr 0 ;;;
  store PTR_STATE ptr (fromU64 STATE_COMPLETED) ;;;
  ret true.

Definition cancelOrder (orderId : Z) : M bool :=
  let ptr := subPtr orderId in
  stateWord <- load PTR_STATE ptr ;;
  let state := toU64 stateWord in
  assert ((state =? STATE_CREATED) || (state =? STATE_ACCEPTED) ||
          (state =? STATE_FUNDED) || (state =? STATE_DISPUTED))
         "Cannot cancel in current state" ;;;
  seller <- loadAddress (sellerPtr orderId) ;;
  buyer <- loadAddress (buyerPtr orderId) ;;
  caller <- tx_sender ;;
  assert (Address_equals seller caller || Address_equals buyer caller)
         "Only seller or buyer can cancel" ;;;
  store PTR_LOCKED ptr 0 ;;;
  store PTR_STATE ptr (fromU64 STATE_CANCELLED) ;;;
  ret true.

Definition openDispute (orderId : Z) : M bool :=
  let ptr := subPtr orderId in
  state <- load PTR_STATE ptr ;;
  assert (toU64 state =? STATE_FUNDED) "Can only dispute Funded orders" ;;;
  seller <- loadAddress (sellerPtr orderId) ;;
  buyer <- loadAddress (buyerPtr orderId) ;;
  caller <- tx_sender ;;
  assert (Address_equals seller caller || Address_equals buyer caller)
         "Only seller or buyer can open dispute" ;;;
  store PTR_STATE ptr (fromU64 STATE_DISPUTED) ;;;
  ret true.

(** The eight values [getOrder] writes to its result, in order. *)
Record OrderView : Type := mkOrderView {
  v_orderId : Z;
  v_seller : Address;
  v_buyer : Address;
  v_price : Z;
  v_locked : Z;
  v_state : Z;
  v_deadline : Z;
  v_acceptedAt : Z
}.

Definition getOrder (orderId : Z) : M OrderView :=
  let ptr := subPtr orderId in
  seller <- loadAddress (sellerPtr orderId) ;;
  buyer <- loadAddress (buyerPtr orderId) ;;
  price <- load PTR_PRICE ptr ;;
  locked <- load PTR_LOCKED ptr ;;
  stateWord <- load PTR_STATE ptr ;;
  let state := u8 (toU64 stateWord) in
  deadlineWord <- load PTR_DEADLINE ptr ;;
  acceptedWord <- load PTR_ACCEPTED_AT ptr ;;
  ret (mkOrderView orderId seller buyer price locked state
         (toU64 deadlineWord) (toU64 acceptedWord)).

(** The scan of [getEscrowStats].  The source loop is
    [for (let i: u64 = 1; i <= count; i++)]; the counter [i] is a 64-bit
    value and wraps.  [fuel] bounds the number of iterations; [None] is
    the answer of a run that used it up. *)
Fixpoint stats_loop (fuel : nat) (count i totalLocked : Z) : M (option Z) :=
  match fuel with
  | O => ret None
  | S fuel' =>
      if i <=? count then
        stateWord <- load PTR_STATE (subPtr i) ;;
        let state := toU64 stateWord in
        total' <- (if (state =? STATE_FUNDED) || (state =? STATE_DISPUTED)
                   then locked <- load PTR_LOCKED (subPtr i) ;;
                        SafeMath_add totalLocked locked
                   else ret totalLocked) ;;
        stats_loop fuel' count (wrap64 (i + 1)) total'
      else ret (Some totalLocked)
  end.

Definition getEscrowStats (fuel : nat) : M (option (Z * Z * Z)) :=
  countWord <- load PTR_ORDER_COUNT emptySubPtr ;;
  let count := toU64 countWord in
  r <- stats_loop fuel count 1 0 ;;
  match r with
  | Some totalLocked => ret (Some (totalLocked, totalLocked, count))
  | None => ret None
  end.

(** ** The host: calls, commit and roll-back *)

Inductive Call : Type :=
| CreateOrder (price deadlineBlocks : Z)
| AcceptOrder (orderId : Z)
| FundOrder (orderId : Z)
| ConfirmCompletion (orderId : Z)
| CancelOrder (orderId : Z)
| OpenDispute (orderId : Z).

Inductive retval : Type :=
| RU64 (orderId : Z)
| RBool (ok : bool).

Definition dispatch (c : Call) : M retval :=
  match c with
  | CreateOrder price deadlineBlocks =>
      r <- createOrder price deadlineBlocks ;; ret (RU64 r)
  | AcceptOrder orderId => r <- acceptOrder orderId ;; ret (RBool r)
  | FundOrder orderId => r <- fundOrder orderId ;; ret (RBool r)
  | ConfirmCompletion orderId => r <- confirmCompletion orderId ;; ret (RBool r)
  | CancelOrder orderId => r <- cancelOrder orderId ;; ret (RBool r)
  | OpenDispute orderId => r <- openDispute orderId ;; ret (RBool r)
  end.

(** Modelled from the spec: the host's handling of one call, which is the
    runtime's and not part of the repository (the entry point only hands an
    abort to the runtime's [revertOnError]).  The host runs one call to its
    end; a call that returns commits its writes, a call that aborts commits
    none. *)
Definition execute {A} (m : M A) (e : Env) (s : Store) : option A * Store :=
  match m e s with
  | Ok a s' => (Some a, s')
  | Revert _ _ => (None, s)
  end.

Definition step (e : Env) (c : Call) (s : Store) : Store :=
  snd (execute (dispatch c) e s).

(** Arguments arrive decoded in their declared width. *)
Definition wf_env (e : Env) : Prop := is_u256 (sender e) /\ is_u64 (number e).

Definition wf_call (c : Call) : Prop :=
  match c with
  | CreateOrder price deadlineBlocks => is_u256 price /\ is_u64 deadlineBlocks
  | AcceptOrder orderId | FundOrder orderId | ConfirmCompletion orderId
  | CancelOrder orderId | OpenDispute orderId => is_u64 orderId
  end.

Definition emptyStore : Store := mkStore ∅ ∅.

(** The store right after deployment. *)
Definition deployed : Store :=
  snd (execute onDeployment (mkEnv Address_zero 0) emptyStore).

(** Stores the host can reach from [s0] by well-formed calls whose
    environment satisfies [P]. *)
Inductive reachable_from (P : Env -> Prop) (s0 : Store) : Store -> Prop :=
| reach_refl : reachable_from P s0 s0
| reach_step s e c :
    reachable_from P s0 s -> P e -> wf_env e -> wf_call c ->
    reachable_from P s0 (step e c s).

Definition reachable : Store -> Prop := reachable_from (fun _ => True) deployed.

(** ** Reading an order's fields *)

Definition orderCount (s : Store) : Z := toU64 (StoredU256_get PTR_ORDER_COUNT emptySubPtr s).
Definition stateOf (s : Store) (orderId : Z) : Z := toU64 (StoredU256_get PTR_STATE (subPtr orderId) s).
Definition priceOf (s : Store) (orderId : Z) : Z := StoredU256_get PTR_PRICE (subPtr orderId) s.
Definition lockedOf (s : Store) (orderId : Z) : Z := StoredU256_get PTR_LOCKED (subPtr orderId) s.
Definition deadlineOf (s : Store) (orderId : Z) : Z := toU64 (StoredU256_get PTR_DEADLINE (subPtr orderId) s).
Definition acceptedAtOf (s : Store) (orderId : Z) : Z := toU64 (StoredU256_get PTR_ACCEPTED_AT (subPtr orderId) s).
Definition sellerOf (s : Store) (orderId : Z) : Address := StoredAddress_get (sellerPtr orderId) s.
Definition buyerOf (s : Store) (orderId : Z) : Address := StoredAddress_get (buyerPtr orderId) s.

(** Big-endian reading of a byte buffer, the inverse of [subPtr]. *)
Definition readBE (buf : list Z) : Z := fold_left (fun acc b => acc * 256 + b) buf 0.

(** * Notions used in the statements *)

(** ** What each method writes *)

(** The store a successful [createOrder] has written just before it
    computes the deadline. *)
Definition create_writes1 (e : Env) (price orderId : Z) (s : Store) : Store :=
  StoredU256_set PTR_STATE (subPtr orderId) STATE_CREATED
    (StoredU256_set PTR_LOCKED (subPtr orderId) 0
      (StoredU256_set PTR_PRICE (subPtr orderId) price
        (StoredAddress_set (sellerPtr orderId) (sender e)
          (StoredU256_set PTR_ORDER_COUNT emptySubPtr orderId s)))).

Definition create_writes (e : Env) (price orderId deadline : Z) (s : Store) : Store :=
  StoredU256_set PTR_ACCEPTED_AT (subPtr orderId) 0
    (StoredU256_set PTR_DEADLINE (subPtr orderId) deadline
      (create_writes1 e price orderId s)).

Definition accept_writes (e : Env) (orderId : Z) (s : Store) : Store :=
  StoredU256_set PTR_ACCEPTED_AT (subPtr orderId) (number e)
    (StoredU256_set PTR_STATE (subPtr orderId) STATE_ACCEPTED
      (StoredAddress_set (buyerPtr orderId) (sender e) s)).

Definition fund_writes (orderId : Z) (s : Store) : Store :=
  StoredU256_set PTR_STATE (subPtr orderId) STATE_FUNDED
    (StoredU256_set PTR_LOCKED (subPtr orderId) (priceOf s orderId) s).

Definition release_writes (newState orderId : Z) (s : Store) : Store :=
  StoredU256_set PTR_STATE (subPtr orderId) newState
    (StoredU256_set PTR_LOCKED (subPtr orderId) 0 s).

Definition dispute_writes (orderId : Z) (s : Store) : Store :=
  StoredU256_set PTR_STATE (subPtr orderId) STATE_DISPUTED s.

Definition is_party (e : Env) (s : Store) (orderId : Z) : bool :=
  Address_equals (sellerOf s orderId) (sender e) ||
  Address_equals (buyerOf s orderId) (sender e).

Definition cancellable (st : Z) : bool :=
  (st =? STATE_CREATED) || (st =? STATE_ACCEPTED) ||
  (st =? STATE_FUNDED) || (st =? STATE_DISPUTED).

(** ** The transition relation of one committed call *)

Definition is_partyP (e : Env) (s : Store) (orderId : Z) : Prop :=
  sellerOf s orderId = sender e \/ buyerOf s orderId = sender e.

(** [transition e s c s']: the call [c], made in environment [e] on store
    [s], commits store [s']. *)
Inductive transition (e : Env) (s : Store) : Call -> Store -> Prop :=
| t_abort c : transition e s c s
| t_create price deadlineBlocks :
    0 < price -> 6 <= deadlineBlocks ->
    orderCount s + 1 <= U64_MAX -> number e + deadlineBlocks <= U64_MAX ->
    transition e s (CreateOrder price deadlineBlocks)
      (create_writes e price (orderCount s + 1) (number e + deadlineBlocks) s)
| t_accept orderId :
    stateOf s orderId = STATE_CREATED -> number e <= deadlineOf s orderId ->
    transition e s (AcceptOrder orderId) (accept_writes e orderId s)
| t_fund orderId :
    stateOf s orderId = STATE_ACCEPTED -> buyerOf s orderId = sender e ->
    transition e s (FundOrder orderId) (fund_writes orderId s)
| t_confirm orderId :
    stateOf s orderId = STATE_FUNDED -> buyerOf s orderId = sender e ->
    transition e s (ConfirmCompletion orderId) (release_writes STATE_COMPLETED orderId s)
| t_cancel orderId :
    cancellable (stateOf s orderId) = true -> is_partyP e s orderId ->
    transition e s (CancelOrder orderId) (release_writes STATE_CANCELLED orderId s)
| t_dispute orderId :
    stateOf s orderId = STATE_FUNDED -> is_partyP e s orderId ->
    transition e s (OpenDispute orderId) (dispute_writes orderId s).

(** ** The locked amount *)

(** The locked amount of an order is zero unless the order is Funded or
    Disputed, and then it is the order's price. *)
Definition locked_inv (s : Store) (orderId : Z) : Prop :=
  lockedOf s orderId <> 0 ->
  (stateOf s orderId = STATE_FUNDED \/ stateOf s orderId = STATE_DISPUTED) /\
  lockedOf s orderId = priceOf s orderId.

(** ** Sample runs *)

Definition alice : Address := 11.
Definition bob : Address := 22.

Definition sample_created : Store := step (mkEnv alice 100) (CreateOrder 500 10) deployed.
Definition sample_accepted : Store := step (mkEnv bob 101) (AcceptOrder 1) sample_created.
Definition sample_funded : Store := step (mkEnv bob 102) (FundOrder 1) sample_accepted.
Definition sample_completed : Store := step (mkEnv bob 103) (ConfirmCompletion 1) sample_funded.

(** ** Orders that exist and orders that do not *)

(** The per-order calls and the order they name. *)
Definition order_call (c : Call) : option Z :=
  match c with
  | CreateOrder _ _ => None
  | AcceptOrder orderId | FundOrder orderId | ConfirmCompletion orderId
  | CancelOrder orderId | OpenDispute orderId => Some orderId
  end.

(** An identifier outside [1, orderCount] has the zero state word. *)
Definition fresh_inv (s : Store) : Prop :=
  forall id, is_u64 id -> id = 0 \/ orderCount s < id -> stateOf s id = 0.

(** ** Terminal states *)

Definition terminal (st : Z) : Prop := st = STATE_COMPLETED \/ st = STATE_CANCELLED.

Definition sample_after_completion : Store :=
  step (mkEnv alice 104) (CreateOrder 300 6) sample_completed.

(** ** Reading an order back *)

(** The fields a method wrote, as [getOrder] reports them on the store the
    method left. *)
Definition reads_back (orderId : Z) (e' : Env) (s' : Store) (P : OrderView -> Prop) : Prop :=
  exists v, getOrder orderId e' s' = Ok v s' /\ v_orderId v = orderId /\ P v.

(** ** Storage keys *)

Inductive fieldKind : Type :=
| OrderCount | Price | Locked | State | Deadline | AcceptedAt | Seller | Buyer.

(** The slot a field is kept in, as the methods address it: the counter
    under its pointer and the empty sub-pointer, a word field of an order
    under the field's pointer and [subPtr orderId], an address field under
    [u16(BASE + orderId)]. *)
Definition resolve (f : fieldKind) (orderId : Z) : slot :=
  match f with
  | OrderCount => Wide PTR_ORDER_COUNT emptySubPtr
  | Price => Wide PTR_PRICE (subPtr orderId)
  | Locked => Wide PTR_LOCKED (subPtr orderId)
  | State => Wide PTR_STATE (subPtr orderId)
  | Deadline => Wide PTR_DEADLINE (subPtr orderId)
  | AcceptedAt => Wide PTR_ACCEPTED_AT (subPtr orderId)
  | Seller => Narrow (sellerPtr orderId)
  | Buyer => Narrow (buyerPtr orderId)
  end.

(** The identifiers the address pointers keep apart. *)
Definition supported (orderId : Z) : Prop := 1 <= orderId <= 9899.

(** ** The aggregate query *)

Definition counts_as_locked (s : Store) (orderId : Z) : bool :=
  (stateOf s orderId =? STATE_FUNDED) || (stateOf s orderId =? STATE_DISPUTED).

(** The locked values of the orders [from], ..., [from + len - 1] that are
    Funded or Disputed. *)
Definition locked_values (s : Store) (from len : Z) : list Z :=
  map (lockedOf s) (List.filter (counts_as_locked s) (seqZ from len)).

Definition sumZ (l : list Z) : Z := fold_right Z.add 0 l.

(** The total as the specification words it: the sum of the locked values
    of every order from 1 to [orderCount] whose state is Funded or
    Disputed.  The scan of [getEscrowStats] is compared with it below. *)
Definition totalLocked_spec (s : Store) : Z :=
  sumZ (locked_values s 1 (orderCount s)).

(** Every locked amount and price in the store is a 256-bit value. *)
Definition values_inv (s : Store) : Prop :=
  forall id, is_u64 id -> is_u256 (lockedOf s id) /\ is_u256 (priceOf s id).

(** Running a list of calls, each in its own environment. *)
Fixpoint run (calls : list (Env * Call)) (s : Store) : Store :=
  match calls with
  | [] => s
  | (e, c) :: rest => run rest (step e c s)
  end.

(** Three orders; the second is funded, the third funded and disputed. *)
Definition stats_calls : list (Env * Call) :=
  [ (mkEnv alice 100, CreateOrder 100 6);
    (mkEnv alice 100, CreateOrder 500 6);
    (mkEnv alice 100, CreateOrder 300 6);
    (mkEnv bob 101, AcceptOrder 2);
    (mkEnv bob 101, AcceptOrder 3);
    (mkEnv bob 102, FundOrder 2);
    (mkEnv bob 102, FundOrder 3);
    (mkEnv alice 103, OpenDispute 3) ].

Definition sample_stats : Store := run stats_calls deployed.

(** ** The buyer field *)

Definition nonzero_sender (e : Env) : Prop := sender e <> Address_zero.

(** An order with no buyer was never accepted. *)
Definition no_buyer_inv (s : Store) : Prop :=
  forall id, is_u64 id -> buyerOf s id = Address_zero ->
  stateOf s id = 0 \/ stateOf s id = STATE_CREATED \/ stateOf s id = STATE_CANCELLED.

(** While the identifiers stay in the supported range, an order that is
    not yet accepted has no buyer. *)
Definition created_inv (s : Store) : Prop :=
  orderCount s <= 9899 ->
  forall id, supported id ->
  stateOf s id = 0 \/ stateOf s id = STATE_CREATED -> buyerOf s id = Address_zero.

(** Every identifier from 1 to the counter names an order. *)
Definition exists_inv (s : Store) : Prop :=
  forall id, 1 <= id <= orderCount s -> stateOf s id <> 0.

Definition sample_cancelled_early : Store :=
  step (mkEnv alice 101) (CancelOrder 1) sample_created.

(** [n] orders created in a row by the same seller. *)
Fixpoint create_many (n : nat) (s : Store) : Store :=
  match n with
  | O => s
  | S k => create_many k (step (mkEnv alice 100) (CreateOrder 500 6) s)
  end.

(** ** Further notions *)

(** The record [getOrder] returns for an order, read off the store. *)
Definition orderView (s : Store) (orderId : Z) : OrderView :=
  mkOrderView orderId (sellerOf s orderId) (buyerOf s orderId)
    (priceOf s orderId) (lockedOf s orderId) (u8 (stateOf s orderId))
    (deadlineOf s orderId) (acceptedAtOf s orderId).

(** The five stored words of an order, uncut. *)
Definition orderWords (s : Store) (orderId : Z) : list Z :=
  [ StoredU256_get PTR_PRICE (subPtr orderId) s;
    StoredU256_get PTR_LOCKED (subPtr orderId) s;
    StoredU256_get PTR_STATE (subPtr orderId) s;
    StoredU256_get PTR_DEADLINE (subPtr orderId) s;
    StoredU256_get PTR_ACCEPTED_AT (subPtr orderId) s ].

(** The order a call writes to: the one it names, or, for a creation, the
    next identifier. *)
Definition target_order (s : Store) (c : Call) : Z :=
  match c with
  | CreateOrder _ _ => orderCount s + 1
  | AcceptOrder orderId | FundOrder orderId | ConfirmCompletion orderId
  | CancelOrder orderId | OpenDispute orderId => orderId
  end.

(** The moves the methods make on a state word: creation (from the zero
    word), acceptance, funding, completion, dispute, and cancellation from
    Created, Accepted, Funded or Disputed. *)
Definition state_edge (a b : Z) : bool :=
  ((a =? 0) && (b =? STATE_CREATED)) ||
  ((a =? STATE_CREATED) && (b =? STATE_ACCEPTED)) ||
  ((a =? STATE_ACCEPTED) && (b =? STATE_FUNDED)) ||
  ((a =? STATE_FUNDED) && (b =? STATE_COMPLETED)) ||
  ((a =? STATE_FUNDED) && (b =? STATE_DISPUTED)) ||
  (cancellable a && (b =? STATE_CANCELLED)).

Definition state_range_inv (s : Store) : Prop :=
  forall id, is_u64 id ->
  0 <= stateOf s id <= 6 /\
  StoredU256_get PTR_STATE (subPtr id) s = stateOf s id.

Definition in_time_inv (s : Store) : Prop :=
  forall id, is_u64 id ->
  acceptedAtOf s id <= deadlineOf s id /\
  (stateOf s id <> 0 -> 6 <= deadlineOf s id).

Definition funded_inv (s : Store) : Prop :=
  forall id, is_u64 id ->
  (stateOf s id = STATE_FUNDED \/ stateOf s id = STATE_DISPUTED ->
   lockedOf s id = priceOf s id) /\
  (stateOf s id <> 0 -> 0 < priceOf s id).

(** An identifier that names no order has five zero words. *)
Definition blank_inv (s : Store) : Prop :=
  forall id, is_u64 id -> id = 0 \/ orderCount s < id ->
  orderWords s id = [0; 0; 0; 0; 0].

(** In the supported range it has no seller and no buyer either. *)
Definition addr_blank_inv (s : Store) : Prop :=
  orderCount s <= 9899 ->
  forall id, 0 <= id <= 9899 -> id = 0 \/ orderCount s < id ->
  sellerOf s id = Address_zero /\ buyerOf s id = Address_zero.

(** What one order adds to the total of [getEscrowStats]. *)
Definition contribution (s : Store) (orderId : Z) : Z :=
  if counts_as_locked s orderId then lockedOf s orderId else 0.

(** What a call adds to that total: nothing when it aborts; when it
    returns, the price for fundOrder, minus the locked amount for
    confirmCompletion and cancelOrder, nothing for the other methods. *)
Definition locked_delta (e : Env) (c : Call) (s : Store) : Z :=
  match dispatch c e s with
  | Revert _ _ => 0
  | Ok _ _ =>
      match c with
      | FundOrder orderId => priceOf s orderId
      | ConfirmCompletion orderId | CancelOrder orderId => - lockedOf s orderId
      | CreateOrder _ _ | AcceptOrder _ | OpenDispute _ => 0
      end
  end.

(** The store after as many creations as the 64-bit counter can count. *)
Definition full_counter_store : Store := create_many (Z.to_nat U64_MAX) deployed.

(** * Basic facts about keys and the store *)

Lemma readBE_subPtr (orderId : Z) : is_u64 orderId -> readBE (subPtr orderId) = orderId.
Proof.
  unfold is_u64, U64_MAX, readBE, subPtr, u8. intros H.
  change 255 with (Z.ones 8).
  rewrite !Z.land_ones, !Z.shiftr_div_pow2 by lia.
  cbn [repeat app fold_left].
  rewrite !Z.mod_mod by lia.
  Z.div_mod_to_equations; lia.
Qed.

Lemma subPtr_inj (a b : Z) : is_u64 a -> is_u64 b -> subPtr a = subPtr b -> a = b.
Proof.
  intros Ha Hb Heq.
  rewrite <- (readBE_subPtr a Ha), <- (readBE_subPtr b Hb).
  now rewrite Heq.
Qed.

Section StoreLaws.
Variables (p p' : Z) (sp sp' : list Z) (v : Z) (a : Address) (s : Store).

Lemma get_set_eq : StoredU256_get p sp (StoredU256_set p sp v s) = v.
Proof. unfold StoredU256_get, StoredU256_set; cbn. now rewrite lookup_insert_eq. Qed.

Lemma get_set_ne :
  (p', sp') <> (p, sp) ->
  StoredU256_get p sp (StoredU256_set p' sp' v s) = StoredU256_get p sp s.
Proof.
  intros Hne. unfold StoredU256_get, StoredU256_set; cbn.
  now rewrite lookup_insert_ne.
Qed.

Lemma get_set_ptr_ne :
  p' <> p -> StoredU256_get p sp (StoredU256_set p' sp' v s) = StoredU256_get p sp s.
Proof. intros Hne. apply get_set_ne. congruence. Qed.

Lemma get_set_sub_ne :
  sp' <> sp -> StoredU256_get p sp (StoredU256_set p' sp' v s) = StoredU256_get p sp s.
Proof. intros Hne. apply get_set_ne. congruence. Qed.

Lemma get_setAddress : StoredU256_get p sp (StoredAddress_set p' a s) = StoredU256_get p sp s.
Proof. reflexivity. Qed.

Lemma getAddress_set : StoredAddress_get p (StoredU256_set p' sp' v s) = StoredAddress_get p s.
Proof. reflexivity. Qed.

Lemma getAddress_setAddress_eq : StoredAddress_get p (StoredAddress_set p a s) = a.
Proof. unfold StoredAddress_get, StoredAddress_set; cbn. now rewrite lookup_insert_eq. Qed.

Lemma getAddress_setAddress_ne :
  p' <> p -> StoredAddress_get p (StoredAddress_set p' a s) = StoredAddress_get p s.
Proof.
  intros Hne. unfold StoredAddress_get, StoredAddress_set; cbn.
  now rewrite lookup_insert_ne.
Qed.
End StoreLaws.

Lemma get_empty (p : Z) (sp : list Z) : StoredU256_get p sp emptyStore = 0.
Proof. unfold StoredU256_get, emptyStore; cbn. now rewrite lookup_empty. Qed.

Lemma getAddress_empty (p : Z) : StoredAddress_get p emptyStore = Address_zero.
Proof. unfold StoredAddress_get, emptyStore; cbn. now rewrite lookup_empty. Qed.

(** From here on the store is used through these laws only. *)
#[global] Opaque StoredU256_get StoredU256_set StoredAddress_get StoredAddress_set.

(** ** What each method computes *)

Ltac run_body :=
  cbv beta iota zeta delta
    [bind ret abort assert load store loadAddress storeAddress tx_sender
     block_number SafeMath_add64 SafeMath_add fromU64].

Ltac split_ifs :=
  repeat match goal with
         | |- context [if ?c then _ else _] => destruct c eqn:?; run_body
         end.

Lemma createOrder_eq (price deadlineBlocks : Z) (e : Env) (s : Store) :
  createOrder price deadlineBlocks e s =
  if 0 <? price then
    if 6 <=? deadlineBlocks then
      let orderId := wrap64 (orderCount s + 1) in
      if orderId <? orderCount s then Revert "SafeMath: addition overflow" s
      else
        let deadline := wrap64 (number e + deadlineBlocks) in
        if deadline <? number e
        then Revert "SafeMath: addition overflow" (create_writes1 e price orderId s)
        else Ok orderId (create_writes e price orderId deadline s)
    else Revert "Deadline must be >= 6 blocks" s
  else Revert "Price must be > 0" s.
Proof.
  unfold createOrder, orderCount. run_body. split_ifs; reflexivity.
Qed.

Lemma acceptOrder_eq (orderId : Z) (e : Env) (s : Store) :
  acceptOrder orderId e s =
  if stateOf s orderId =? STATE_CREATED then
    if number e <=? deadlineOf s orderId then Ok true (accept_writes e orderId s)
    else Revert "Order deadline passed" s
  else Revert "Order not in Created state" s.
Proof.
  unfold acceptOrder, stateOf, deadlineOf. run_body. split_ifs; reflexivity.
Qed.

Lemma fundOrder_eq (orderId : Z) (e : Env) (s : Store) :
  fundOrder orderId e s =
  if stateOf s orderId =? STATE_ACCEPTED then
    if Address_equals (buyerOf s orderId) (sender e) then Ok true (fund_writes orderId s)
    else Revert "Only buyer can fund" s
  else Revert "Order not in Accepted state" s.
Proof.
  unfold fundOrder, stateOf, buyerOf. run_body. split_ifs; reflexivity.
Qed.

Lemma confirmCompletion_eq (orderId : Z) (e : Env) (s : Store) :
  confirmCompletion orderId e s =
  if stateOf s orderId =? STATE_FUNDED then
    if Address_equals (buyerOf s orderId) (sender e)
    then Ok true (release_writes STATE_COMPLETED orderId s)
    else Revert "Only buyer can confirm" s
  else Revert "Order not in Funded state" s.
Proof.
  unfold confirmCompletion, stateOf, buyerOf. run_body. split_ifs; reflexivity.
Qed.

Lemma cancelOrder_eq (orderId : Z) (e : Env) (s : Store) :
  cancelOrder orderId e s =
  if cancellable (stateOf s orderId) then
    if is_party e s orderId then Ok true (release_writes STATE_CANCELLED orderId s)
    else Revert "Only seller or buyer can cancel" s
  else Revert "Cannot cancel in current state" s.
Proof.
  unfold cancelOrder, cancellable, is_party, stateOf, sellerOf, buyerOf. run_body.
  split_ifs; reflexivity.
Qed.

Lemma openDispute_eq (orderId : Z) (e : Env) (s : Store) :
  openDispute orderId e s =
  if stateOf s orderId =? STATE_FUNDED then
    if is_party e s orderId then Ok true (dispute_writes orderId s)
    else Revert "Only seller or buyer can open dispute" s
  else Revert "Can only dispute Funded orders" s.
Proof.
  unfold openDispute, is_party, stateOf, sellerOf, buyerOf. run_body.
  split_ifs; reflexivity.
Qed.

(** ** The transition relation of one committed call *)

Lemma toU64_range (v : Z) : is_u64 (toU64 v).
Proof. unfold is_u64, U64_MAX, toU64. pose proof (Z.mod_pos_bound v (2 ^ 64)). lia. Qed.

Lemma orderCount_range (s : Store) : is_u64 (orderCount s).
Proof. apply toU64_range. Qed.

Lemma toU64_small (v : Z) : is_u64 v -> toU64 v = v.
Proof. unfold is_u64, U64_MAX, toU64. intros H. apply Z.mod_small. lia. Qed.

Lemma add64_checked (a b : Z) :
  is_u64 a -> is_u64 b ->
  (wrap64 (a + b) <? a) = negb (a + b <=? U64_MAX) /\
  (a + b <= U64_MAX -> wrap64 (a + b) = a + b).
Proof.
  unfold is_u64, U64_MAX, wrap64. intros Ha Hb.
  destruct (Z.leb_spec (a + b) (2 ^ 64 - 1)) as [Hle | Hgt]; cbn [negb].
  - rewrite Z.mod_small by lia. split; [lia | reflexivity].
  - split; [| lia]. apply Z.ltb_lt.
    replace (a + b) with ((a + b - 2 ^ 64) + 1 * 2 ^ 64) by lia.
    rewrite Z.mod_add by lia. rewrite Z.mod_small by lia. lia.
Qed.

Lemma is_party_true (e : Env) (s : Store) (orderId : Z) :
  is_party e s orderId = true <-> is_partyP e s orderId.
Proof.
  unfold is_party, is_partyP, Address_equals.
  rewrite orb_true_iff, !Z.eqb_eq. reflexivity.
Qed.

Lemma cancellable_true (st : Z) :
  cancellable st = true <->
  st = STATE_CREATED \/ st = STATE_ACCEPTED \/ st = STATE_FUNDED \/ st = STATE_DISPUTED.
Proof.
  unfold cancellable. rewrite !orb_true_iff, !Z.eqb_eq. tauto.
Qed.

Lemma step_transition (e : Env) (c : Call) (s : Store) :
  wf_env e -> wf_call c -> transition e s c (step e c s).
Proof.
  intros [_ Hn] Hc. unfold step, execute, dispatch.
  destruct c as [price dl | id | id | id | id | id]; unfold bind at 1.
  - rewrite createOrder_eq. destruct Hc as [_ Hd]. cbv zeta.
    destruct (Z.ltb_spec 0 price); [| apply t_abort].
    destruct (Z.leb_spec 6 dl); [| apply t_abort].
    destruct (add64_checked (orderCount s) 1 (orderCount_range s)) as [E1 E1'];
      [unfold is_u64, U64_MAX; lia |].
    destruct (add64_checked (number e) dl Hn Hd) as [E2 E2'].
    rewrite E1. destruct (Z.leb_spec (orderCount s + 1) U64_MAX); [| apply t_abort].
    cbn [negb]. rewrite E2.
    destruct (Z.leb_spec (number e + dl) U64_MAX); [| apply t_abort].
    cbn [negb ret snd]. rewrite E1', E2' by assumption. now apply t_create.
  - rewrite acceptOrder_eq.
    destruct (Z.eqb_spec (stateOf s id) STATE_CREATED); [| apply t_abort].
    destruct (Z.leb_spec (number e) (deadlineOf s id)); [| apply t_abort].
    now apply t_accept.
  - rewrite fundOrder_eq. unfold Address_equals.
    destruct (Z.eqb_spec (stateOf s id) STATE_ACCEPTED); [| apply t_abort].
    destruct (Z.eqb_spec (buyerOf s id) (sender e)); [| apply t_abort].
    now apply t_fund.
  - rewrite confirmCompletion_eq. unfold Address_equals.
    destruct (Z.eqb_spec (stateOf s id) STATE_FUNDED); [| apply t_abort].
    destruct (Z.eqb_spec (buyerOf s id) (sender e)); [| apply t_abort].
    now apply t_confirm.
  - rewrite cancelOrder_eq.
    destruct (cancellable (stateOf s id)) eqn:Hst; [| apply t_abort].
    destruct (is_party e s id) eqn:Hp; [| apply t_abort].
    apply t_cancel; [assumption | now apply is_party_true].
  - rewrite openDispute_eq.
    destruct (Z.eqb_spec (stateOf s id) STATE_FUNDED); [| apply t_abort].
    destruct (is_party e s id) eqn:Hp; [| apply t_abort].
    apply t_dispute; [assumption | now apply is_party_true].
Qed.

(** Reading a slot back after a sequence of writes. *)
Ltac ptr_ne := solve [compute; discriminate].
Ltac sub_ne :=
  solve [ let Hsub := fresh in
          intro Hsub; apply subPtr_inj in Hsub;
          [ first [congruence | lia] | assumption .. ] ].

Ltac store_step :=
  match goal with
  | |- context [StoredU256_get ?p ?sp (StoredAddress_set ?p' ?a ?s)] =>
      rewrite (get_setAddress p p' sp a s)
  | |- context [StoredAddress_get ?p (StoredU256_set ?p' ?sp' ?v ?s)] =>
      rewrite (getAddress_set p p' sp' v s)
  | |- context [StoredU256_get ?p ?sp (StoredU256_set ?p ?sp ?v ?s)] =>
      rewrite (get_set_eq p sp v s)
  | |- context [StoredU256_get ?p ?sp (StoredU256_set ?p' ?sp' ?v ?s)] =>
      rewrite (get_set_ptr_ne p p' sp sp' v s) by ptr_ne
  | |- context [StoredU256_get ?p ?sp (StoredU256_set ?p' ?sp' ?v ?s)] =>
      rewrite (get_set_sub_ne p p' sp sp' v s) by sub_ne
  | |- context [StoredAddress_get ?p (StoredAddress_set ?p ?a ?s)] =>
      rewrite (getAddress_setAddress_eq p a s)
  | |- context [StoredAddress_get ?p (StoredAddress_set ?p' ?a ?s)] =>
      rewrite (getAddress_setAddress_ne p p' a s) by (first [assumption | lia])
  end.

Ltac unfold_fields :=
  unfold orderCount, stateOf, priceOf, lockedOf, deadlineOf, acceptedAtOf,
    sellerOf, buyerOf, create_writes, create_writes1, accept_writes,
    fund_writes, release_writes, dispute_writes in *.

Ltac store_simpl := unfold_fields; repeat store_step.

(** * The locked amount *)

Lemma deployed_eq : deployed = StoredU256_set PTR_ORDER_COUNT emptySubPtr 0 emptyStore.
Proof. reflexivity. Qed.

Lemma orderCount_deployed : orderCount deployed = 0.
Proof. rewrite deployed_eq. unfold orderCount. now rewrite get_set_eq. Qed.

Lemma field_deployed (p : Z) (orderId : Z) :
  p <> PTR_ORDER_COUNT -> StoredU256_get p (subPtr orderId) deployed = 0.
Proof.
  intros Hp. rewrite deployed_eq, get_set_ptr_ne by congruence. apply get_empty.
Qed.

Lemma address_deployed (p : Z) : StoredAddress_get p deployed = Address_zero.
Proof. rewrite deployed_eq, getAddress_set. apply getAddress_empty. Qed.

Lemma locked_inv_deployed (orderId : Z) : locked_inv deployed orderId.
Proof.
  intros H. exfalso. apply H. unfold lockedOf. apply field_deployed. ptr_ne.
Qed.

Lemma locked_inv_transition (e : Env) (c : Call) (s s' : Store) :
  transition e s c s' -> wf_call c ->
  (forall id, is_u64 id -> locked_inv s id) ->
  forall id, is_u64 id -> locked_inv s' id.
Proof.
  intros Ht Hc IH id Hid.
  destruct Ht as [c | price dl Hp Hd Hcnt Hdl | id' Hst Hh | id' Hst Hb
                 | id' Hst Hb | id' Hst Hb | id' Hst Hb]; cbn in Hc.
  - now apply IH.
  - assert (Hnew : is_u64 (orderCount s + 1))
      by (pose proof (orderCount_range s); unfold is_u64 in *; lia).
    specialize (IH id Hid). revert IH Hnew.
    generalize (orderCount s + 1) as newId. intros newId IH Hnew.
    unfold locked_inv in *.
    destruct (Z.eq_dec id newId) as [-> | Hne].
    + store_simpl. congruence.
    + store_simpl. exact IH.
  - specialize (IH id Hid). unfold locked_inv in *.
    destruct (Z.eq_dec id id') as [-> | Hne].
    + store_simpl. intros Hl. destruct (IH Hl) as [[H3 | H6] _]; rewrite Hst in *; discriminate.
    + store_simpl. exact IH.
  - specialize (IH id Hid). unfold locked_inv in *.
    destruct (Z.eq_dec id id') as [-> | Hne].
    + store_simpl. intros _. split; [left |]; reflexivity.
    + store_simpl. exact IH.
  - specialize (IH id Hid). unfold locked_inv in *.
    destruct (Z.eq_dec id id') as [-> | Hne].
    + store_simpl. congruence.
    + store_simpl. exact IH.
  - specialize (IH id Hid). unfold locked_inv in *.
    destruct (Z.eq_dec id id') as [-> | Hne].
    + store_simpl. congruence.
    + store_simpl. exact IH.
  - specialize (IH id Hid). unfold locked_inv in *.
    destruct (Z.eq_dec id id') as [-> | Hne].
    + store_simpl. intros Hl. destruct (IH Hl) as [_ Heq].
      split; [right; reflexivity | exact Heq].
    + store_simpl. exact IH.
Qed.

Lemma locked_inv_reachable (P : Env -> Prop) (s : Store) :
  reachable_from P deployed s -> forall id, is_u64 id -> locked_inv s id.
Proof.
  induction 1 as [| s e c Hr IH HP He Hc].
  - intros id _. apply locked_inv_deployed.
  - apply (locked_inv_transition e c s); auto using step_transition.
Qed.

(** ** Sample runs *)

Ltac in_range :=
  unfold wf_env, wf_call, is_u64, is_u256, U64_MAX, U256_MAX; cbn;
  repeat split; try (apply Z.leb_le; vm_compute; reflexivity).

Lemma sample_created_reachable : reachable sample_created.
Proof. apply reach_step; [apply reach_refl | exact I | in_range | in_range]. Defined.

Lemma sample_accepted_reachable : reachable sample_accepted.
Proof. apply reach_step; [apply sample_created_reachable | exact I | in_range | in_range]. Defined.

Lemma sample_funded_reachable : reachable sample_funded.
Proof. apply reach_step; [apply sample_accepted_reachable | exact I | in_range | in_range]. Defined.

Lemma sample_completed_reachable : reachable sample_completed.
Proof. apply reach_step; [apply sample_funded_reachable | exact I | in_range | in_range]. Defined.

(** C1.  In every store the contract can reach, and in the store any further
    call leaves, the locked amount of an order is nonzero only when the
    order is Funded or Disputed, and then it equals the order's price. *)
Theorem locked_only_when_funded_or_disputed (s : Store) (e : Env) (c : Call) (orderId : Z) :
  reachable s -> wf_env e -> wf_call c -> is_u64 orderId ->
  locked_inv s orderId /\ locked_inv (step e c s) orderId.
Proof.
  intros Hr He Hc Hid. split.
  - now apply (locked_inv_reachable (fun _ => True)).
  - apply (locked_inv_transition e c s); auto using step_transition.
    intros id Hid'. now apply (locked_inv_reachable (fun _ => True)).
Qed.

Lemma locked_only_when_funded_or_disputed_witness :
  reachable sample_accepted /\ wf_env (mkEnv bob 102) /\ wf_call (FundOrder 1) /\
  is_u64 1 /\
  (locked_inv sample_accepted 1 /\ locked_inv sample_funded 1).
Proof.
  split; [apply sample_accepted_reachable |].
  split; [in_range |]. split; [in_range |]. split; [in_range |].
  apply (locked_only_when_funded_or_disputed sample_accepted (mkEnv bob 102) (FundOrder 1) 1);
    [apply sample_accepted_reachable | in_range ..].
Defined.

Example sample_funded_order :
  execute (getOrder 1) (mkEnv alice 200) sample_funded =
  (Some (mkOrderView 1 alice bob 500 500 STATE_FUNDED 110 101), sample_funded).
Proof. vm_compute. reflexivity. Qed.

(** * Orders that exist and orders that do not *)

Lemma cancellable_nonzero (st : Z) : cancellable st = true -> st <> 0.
Proof. rewrite cancellable_true. unfold STATE_CREATED, STATE_ACCEPTED, STATE_FUNDED, STATE_DISPUTED. lia. Qed.

(** Only a committed creation moves the counter, and by one. *)
Lemma transition_count (e : Env) (c : Call) (s s' : Store) :
  transition e s c s' ->
  orderCount s' = orderCount s \/
  (orderCount s' = orderCount s + 1 /\ exists p d, c = CreateOrder p d).
Proof.
  intros Ht.
  destruct Ht as [c | price dl Hp Hd Hcnt Hdl | id' Hst Hh | id' Hst Hb
                 | id' Hst Hb | id' Hst Hb | id' Hst Hb];
    try (left; store_simpl; reflexivity).
  right. split; [| eauto].
  assert (Hnew : is_u64 (orderCount s + 1))
    by (pose proof (orderCount_range s); unfold is_u64 in *; lia).
  revert Hnew. generalize (orderCount s + 1) as newId. intros newId Hnew.
  store_simpl. now apply toU64_small.
Qed.

Lemma transition_count_le (e : Env) (c : Call) (s s' : Store) :
  transition e s c s' -> orderCount s <= orderCount s'.
Proof. intros Ht. destruct (transition_count e c s s' Ht) as [-> | [-> _]]; lia. Qed.

(** A committed call leaves the state word of an order as it was, unless
    the order was in a state that a call can leave, or the order is the one
    the call has just created. *)
Lemma transition_state_cases (e : Env) (c : Call) (s s' : Store) (id : Z) :
  transition e s c s' -> wf_call c -> is_u64 id ->
  stateOf s' id = stateOf s id \/
  cancellable (stateOf s id) = true \/
  (id = orderCount s + 1 /\ orderCount s' = id).
Proof.
  intros Ht Hc Hid.
  destruct Ht as [c | price dl Hp Hd Hcnt Hdl | id' Hst Hh | id' Hst Hb
                 | id' Hst Hb | id' Hst Hb | id' Hst Hb]; cbn in Hc;
    try (left; reflexivity);
    try (destruct (Z.eq_dec id id') as [-> | Hne];
         [ right; left; first [assumption | rewrite Hst; reflexivity]
         | left; store_simpl; reflexivity ]).
  assert (Hnew : is_u64 (orderCount s + 1))
    by (pose proof (orderCount_range s); unfold is_u64 in *; lia).
  destruct (Z.eq_dec id (orderCount s + 1)) as [-> | Hne].
  - right; right. split; [reflexivity |].
    revert Hnew. generalize (orderCount s + 1) as newId. intros newId Hnew.
    store_simpl. now apply toU64_small.
  - left. revert Hnew Hne. generalize (orderCount s + 1) as newId.
    intros newId Hnew Hne. store_simpl. reflexivity.
Qed.

Lemma fresh_inv_deployed : fresh_inv deployed.
Proof.
  intros id _ _. unfold stateOf. rewrite field_deployed by ptr_ne. reflexivity.
Qed.

Lemma fresh_inv_transition (e : Env) (c : Call) (s s' : Store) :
  transition e s c s' -> wf_call c -> fresh_inv s -> fresh_inv s'.
Proof.
  intros Ht Hc IH id Hid Hout.
  pose proof (transition_count_le e c s s' Ht) as Hle.
  pose proof (orderCount_range s) as Hr. unfold is_u64 in Hr.
  assert (Hout' : id = 0 \/ orderCount s < id) by lia.
  pose proof (IH id Hid Hout') as H0.
  destruct (transition_state_cases e c s s' id Ht Hc Hid) as [Heq | [Hpre | [Hid' Hcnt]]].
  - congruence.
  - apply cancellable_nonzero in Hpre. contradiction.
  - lia.
Qed.

Lemma fresh_inv_reachable (P : Env -> Prop) (s : Store) :
  reachable_from P deployed s -> fresh_inv s.
Proof.
  induction 1 as [| s e c Hr IH HP He Hc].
  - apply fresh_inv_deployed.
  - apply (fresh_inv_transition e c s); auto using step_transition.
Qed.

(** A per-order call on an order that is in none of the states Created,
    Accepted, Funded, Disputed aborts at its first assertion, before any
    write. *)
Lemma per_order_call_aborts (e : Env) (c : Call) (s : Store) (id : Z) :
  order_call c = Some id -> cancellable (stateOf s id) = false ->
  exists msg, dispatch c e s = Revert msg s.
Proof.
  intros Hc Hst. unfold cancellable in Hst.
  apply orb_false_iff in Hst as [Hst H6].
  apply orb_false_iff in Hst as [Hst H3].
  apply orb_false_iff in Hst as [H1 H2].
  destruct c as [p d | id' | id' | id' | id' | id']; cbn in Hc; try discriminate;
    injection Hc as ->; unfold dispatch, bind at 1.
  - rewrite acceptOrder_eq, H1. eauto.
  - rewrite fundOrder_eq, H2. eauto.
  - rewrite confirmCompletion_eq, H3. eauto.
  - rewrite cancelOrder_eq. unfold cancellable. rewrite H1, H2, H3, H6. cbn. eauto.
  - rewrite openDispute_eq, H3. eauto.
Qed.

Lemma revert_step (e : Env) (c : Call) (s s0 : Store) (msg : string) :
  dispatch c e s = Revert msg s0 -> step e c s = s.
Proof. intros H. unfold step, execute. now rewrite H. Qed.

(** C10.  An identifier that names no created order (zero, or above the
    order counter) has the zero state word in every reachable store, and
    each of acceptOrder, fundOrder, confirmCompletion, cancelOrder and
    openDispute called on it aborts before writing anything: the store is
    left as it was. *)
Theorem nonexistent_order_calls_abort (s : Store) (e : Env) (c : Call) (orderId : Z) :
  reachable s -> is_u64 orderId ->
  orderId = 0 \/ orderCount s < orderId ->
  order_call c = Some orderId ->
  stateOf s orderId = 0 /\
  (exists msg, dispatch c e s = Revert msg s) /\
  step e c s = s.
Proof.
  intros Hr Hid Hout Hc.
  pose proof (fresh_inv_reachable _ s Hr orderId Hid Hout) as H0.
  assert (Hab : exists msg, dispatch c e s = Revert msg s).
  { apply (per_order_call_aborts e c s orderId Hc). now rewrite H0. }
  repeat split; [assumption | assumption |].
  destruct Hab as [msg Hab]. now apply (revert_step e c s s msg).
Qed.

Lemma nonexistent_order_calls_abort_witness :
  reachable sample_created /\ is_u64 2 /\
  (2 = 0 \/ orderCount sample_created < 2) /\
  order_call (FundOrder 2) = Some 2 /\
  (stateOf sample_created 2 = 0 /\
   (exists msg, dispatch (FundOrder 2) (mkEnv bob 101) sample_created
                = Revert msg sample_created) /\
   step (mkEnv bob 101) (FundOrder 2) sample_created = sample_created).
Proof.
  assert (Hcount : 2 = 0 \/ orderCount sample_created < 2) by (right; vm_compute; reflexivity).
  split; [apply sample_created_reachable |].
  split; [in_range |]. split; [exact Hcount |]. split; [reflexivity |].
  apply (nonexistent_order_calls_abort sample_created (mkEnv bob 101) (FundOrder 2) 2);
    [apply sample_created_reachable | in_range | exact Hcount | reflexivity].
Defined.

(** * Terminal states *)

Lemma terminal_not_cancellable (st : Z) : terminal st -> cancellable st = false.
Proof. intros [-> | ->]; reflexivity. Qed.

Lemma terminal_stable (P : Env -> Prop) (s s' : Store) (id : Z) :
  fresh_inv s -> is_u64 id -> terminal (stateOf s id) ->
  reachable_from P s s' ->
  stateOf s' id = stateOf s id /\ id <= orderCount s'.
Proof.
  intros Hf Hid Hterm Hr.
  induction Hr as [| s1 e c Hr [IHst IHcnt] HP He Hc].
  - split; [reflexivity |].
    destruct (Z_le_gt_dec id (orderCount s)) as [Hle | Hgt]; [assumption |].
    rewrite (Hf id Hid) in Hterm by lia.
    destruct Hterm as [Ht | Ht]; discriminate Ht.
  - pose proof (step_transition e c s1 He Hc) as Ht.
    pose proof (transition_count_le e c s1 _ Ht) as Hle.
    split; [| lia].
    destruct (transition_state_cases e c s1 _ id Ht Hc Hid) as [Heq | [Hpre | [Hid' Hcnt]]].
    + congruence.
    + rewrite IHst, (terminal_not_cancellable _ Hterm) in Hpre. discriminate.
    + lia.
Qed.

(** C5.  Once an order of a reachable store is Completed or Cancelled, then
    in every store reached afterwards its state is still the same and each
    of acceptOrder, fundOrder, confirmCompletion, cancelOrder and
    openDispute called on it aborts. *)
Theorem completed_and_cancelled_are_terminal
    (s s' : Store) (e : Env) (c : Call) (orderId : Z) :
  reachable s -> is_u64 orderId -> terminal (stateOf s orderId) ->
  reachable_from (fun _ => True) s s' ->
  order_call c = Some orderId ->
  stateOf s' orderId = stateOf s orderId /\
  (exists msg, dispatch c e s' = Revert msg s') /\
  step e c s' = s'.
Proof.
  intros Hr Hid Hterm Hr' Hc.
  destruct (terminal_stable _ s s' orderId (fresh_inv_reachable _ s Hr) Hid Hterm Hr')
    as [Hst _].
  assert (Hab : exists msg, dispatch c e s' = Revert msg s').
  { apply (per_order_call_aborts e c s' orderId Hc).
    rewrite Hst. now apply terminal_not_cancellable. }
  repeat split; [assumption | assumption |].
  destruct Hab as [msg Hab]. now apply (revert_step e c s' s' msg).
Qed.

Lemma completed_and_cancelled_are_terminal_witness :
  reachable sample_completed /\ is_u64 1 /\ terminal (stateOf sample_completed 1) /\
  reachable_from (fun _ => True) sample_completed sample_after_completion /\
  order_call (CancelOrder 1) = Some 1 /\
  (stateOf sample_after_completion 1 = stateOf sample_completed 1 /\
   (exists msg, dispatch (CancelOrder 1) (mkEnv alice 105) sample_after_completion
                = Revert msg sample_after_completion) /\
   step (mkEnv alice 105) (CancelOrder 1) sample_after_completion = sample_after_completion).
Proof.
  assert (Hterm : terminal (stateOf sample_completed 1)) by (left; vm_compute; reflexivity).
  assert (Hlater : reachable_from (fun _ => True) sample_completed sample_after_completion)
    by (apply reach_step; [apply reach_refl | exact I | in_range | in_range]).
  split; [apply sample_completed_reachable |].
  split; [in_range |]. split; [exact Hterm |]. split; [exact Hlater |].
  split; [reflexivity |].
  apply (completed_and_cancelled_are_terminal sample_completed sample_after_completion
           (mkEnv alice 105) (CancelOrder 1) 1);
    [apply sample_completed_reachable | in_range | exact Hterm | exact Hlater | reflexivity].
Defined.

(** * Order identifiers *)

Lemma createOrder_ok (p d : Z) (e : Env) (s s' : Store) (id : Z) :
  createOrder p d e s = Ok id s' ->
  id = orderCount s + 1 /\ id <= U64_MAX /\ 0 < p /\
  ~ wrap64 (number e + d) < number e /\
  s' = create_writes e p id (wrap64 (number e + d)) s.
Proof.
  rewrite createOrder_eq. cbv zeta.
  destruct (Z.ltb_spec 0 p); [| discriminate].
  destruct (6 <=? d); [| discriminate].
  destruct (add64_checked (orderCount s) 1 (orderCount_range s)) as [E1 E1'];
    [unfold is_u64, U64_MAX; lia |].
  rewrite E1. destruct (Z.leb_spec (orderCount s + 1) U64_MAX); [| discriminate].
  cbn [negb]. rewrite E1' by assumption.
  destruct (Z.ltb_spec (wrap64 (number e + d)) (number e)); [discriminate |].
  intros [= <- <-]. repeat split; try assumption. lia.
Qed.

Lemma count_after_create (e : Env) (p id dl : Z) (s : Store) :
  StoredU256_get PTR_ORDER_COUNT emptySubPtr (create_writes e p id dl s) = id.
Proof. store_simpl. reflexivity. Qed.

Lemma reachable_count_le (P : Env -> Prop) (s s' : Store) :
  reachable_from P s s' -> orderCount s <= orderCount s'.
Proof.
  induction 1 as [| s1 e c Hr IH HP He Hc]; [lia |].
  pose proof (transition_count_le e c s1 _ (step_transition e c s1 He Hc)). lia.
Qed.

(** C7.  A successful createOrder returns the counter plus one and stores
    it as the new counter, so the identifier returned is the stored
    orderCount right after the call; the first identifier after deployment
    is 1, and any creation that succeeds later, whatever calls come in
    between, returns a strictly larger identifier. *)
Theorem createOrder_ids_increase
    (s s1 s2 s3 : Store) (e e' : Env) (p d p' d' id id' : Z) :
  createOrder p d e s = Ok id s1 ->
  reachable_from (fun _ => True) s1 s2 ->
  createOrder p' d' e' s2 = Ok id' s3 ->
  StoredU256_get PTR_ORDER_COUNT emptySubPtr s1 = id /\
  orderCount s1 = id /\
  id = orderCount s + 1 /\
  (s = deployed -> id = 1) /\
  id' = orderCount s2 + 1 /\
  orderCount s3 = id' /\
  id < id'.
Proof.
  intros H1 Hr H2.
  destruct (createOrder_ok _ _ _ _ _ _ H1) as (Hid & Hmax & _ & _ & ->).
  destruct (createOrder_ok _ _ _ _ _ _ H2) as (Hid' & Hmax' & _ & _ & ->).
  pose proof (orderCount_range s) as Hrs.
  pose proof (orderCount_range s2) as Hrs2.
  pose proof (reachable_count_le _ _ _ Hr) as Hle.
  assert (Hc1 : orderCount (create_writes e p id (wrap64 (number e + d)) s) = id).
  { unfold orderCount at 1. rewrite count_after_create.
    apply toU64_small. unfold is_u64 in *. lia. }
  assert (Hc3 : orderCount (create_writes e' p' id' (wrap64 (number e' + d')) s2) = id').
  { unfold orderCount at 1. rewrite count_after_create.
    apply toU64_small. unfold is_u64 in *. lia. }
  rewrite Hc1 in Hle.
  repeat split; try assumption.
  - apply count_after_create.
  - intros ->. rewrite Hid, orderCount_deployed. reflexivity.
  - lia.
Qed.

Lemma createOrder_ids_increase_witness :
  createOrder 500 10 (mkEnv alice 100) deployed = Ok 1 sample_created /\
  reachable_from (fun _ => True) sample_created sample_accepted /\
  createOrder 300 6 (mkEnv alice 104) sample_accepted
    = Ok 2 (step (mkEnv alice 104) (CreateOrder 300 6) sample_accepted) /\
  (StoredU256_get PTR_ORDER_COUNT emptySubPtr sample_created = 1 /\
   orderCount sample_created = 1 /\
   1 = orderCount deployed + 1 /\
   (deployed = deployed -> 1 = 1) /\
   2 = orderCount sample_accepted + 1 /\
   orderCount (step (mkEnv alice 104) (CreateOrder 300 6) sample_accepted) = 2 /\
   1 < 2).
Proof.
  assert (H1 : createOrder 500 10 (mkEnv alice 100) deployed = Ok 1 sample_created)
    by (vm_compute; reflexivity).
  assert (Hr : reachable_from (fun _ => True) sample_created sample_accepted)
    by (apply reach_step; [apply reach_refl | exact I | in_range | in_range]).
  assert (H2 : createOrder 300 6 (mkEnv alice 104) sample_accepted
               = Ok 2 (step (mkEnv alice 104) (CreateOrder 300 6) sample_accepted))
    by (vm_compute; reflexivity).
  split; [exact H1 |]. split; [exact Hr |]. split; [exact H2 |].
  exact (createOrder_ids_increase deployed sample_created sample_accepted _
           (mkEnv alice 100) (mkEnv alice 104) 500 10 300 6 1 2 H1 Hr H2).
Defined.

(** * Acceptance *)

(** C8.  acceptOrder returns if and only if the order is Created and the
    block height is at most the order's deadline, whoever calls; when it
    returns, the buyer is the caller, acceptedAt is the block height, the
    order is Accepted, and a second acceptOrder on the order aborts. *)
Theorem acceptOrder_iff (s : Store) (e : Env) (orderId : Z) :
  is_u64 (number e) ->
  ((exists s', acceptOrder orderId e s = Ok true s') <->
   (stateOf s orderId = STATE_CREATED /\ number e <= deadlineOf s orderId)) /\
  (forall ok s', acceptOrder orderId e s = Ok ok s' ->
     ok = true /\
     buyerOf s' orderId = sender e /\
     acceptedAtOf s' orderId = number e /\
     stateOf s' orderId = STATE_ACCEPTED /\
     forall e2, exists msg, acceptOrder orderId e2 s' = Revert msg s').
Proof.
  intros Hn. rewrite acceptOrder_eq. split.
  - destruct (Z.eqb_spec (stateOf s orderId) STATE_CREATED) as [Hst | Hst].
    + destruct (Z.leb_spec (number e) (deadlineOf s orderId)) as [Hd | Hd].
      * split; [tauto | eauto].
      * split; [intros [s' Hs']; discriminate | lia].
    + split; [intros [s' Hs']; discriminate | tauto].
  - intros ok s' Hok.
    destruct (stateOf s orderId =? STATE_CREATED); [| discriminate].
    destruct (number e <=? deadlineOf s orderId); [| discriminate].
    injection Hok as <- <-.
    assert (Hst : stateOf (accept_writes e orderId s) orderId = STATE_ACCEPTED)
      by (store_simpl; reflexivity).
    repeat split.
    + store_simpl. reflexivity.
    + store_simpl. now apply toU64_small.
    + exact Hst.
    + intros e2. rewrite acceptOrder_eq, Hst. cbn. eauto.
Qed.

Lemma acceptOrder_iff_witness :
  is_u64 (number (mkEnv bob 101)) /\
  (((exists s', acceptOrder 1 (mkEnv bob 101) sample_created = Ok true s') <->
    (stateOf sample_created 1 = STATE_CREATED /\
     number (mkEnv bob 101) <= deadlineOf sample_created 1)) /\
   (forall ok s', acceptOrder 1 (mkEnv bob 101) sample_created = Ok ok s' ->
      ok = true /\
      buyerOf s' 1 = sender (mkEnv bob 101) /\
      acceptedAtOf s' 1 = number (mkEnv bob 101) /\
      stateOf s' 1 = STATE_ACCEPTED /\
      forall e2, exists msg, acceptOrder 1 e2 s' = Revert msg s')).
Proof.
  assert (Hn : is_u64 (number (mkEnv bob 101))) by in_range.
  split; [exact Hn |].
  exact (acceptOrder_iff sample_created (mkEnv bob 101) 1 Hn).
Defined.

Example accept_then_accept_again :
  acceptOrder 1 (mkEnv bob 101) sample_created = Ok true sample_accepted /\
  acceptOrder 1 (mkEnv alice 102) sample_accepted
    = Revert "Order not in Created state" sample_accepted /\
  acceptOrder 1 (mkEnv bob 111) sample_created
    = Revert "Order deadline passed" sample_created /\
  acceptOrder 1 (mkEnv bob 110) sample_created
    = Ok true (step (mkEnv bob 110) (AcceptOrder 1) sample_created).
Proof. repeat split; vm_compute; reflexivity. Qed.

(** * Reading an order back *)

Lemma getOrder_eq (orderId : Z) (e : Env) (s : Store) :
  getOrder orderId e s =
  Ok (mkOrderView orderId (sellerOf s orderId) (buyerOf s orderId)
        (priceOf s orderId) (lockedOf s orderId) (u8 (stateOf s orderId))
        (deadlineOf s orderId) (acceptedAtOf s orderId)) s.
Proof. reflexivity. Qed.

(** C9.  After each mutating method has returned, getOrder on the same
    order returns the values the method wrote: createOrder's seller, price,
    locked, state, deadline and acceptedAt; acceptOrder's buyer, state and
    acceptedAt; fundOrder's locked and state; the locked and state of
    confirmCompletion and cancelOrder; openDispute's state. *)
Theorem getOrder_reads_back_writes (s : Store) (e e' : Env) :
  wf_env e ->
  (forall p d id s', is_u64 d -> createOrder p d e s = Ok id s' ->
     reads_back id e' s' (fun v =>
       v_seller v = sender e /\ v_price v = p /\ v_locked v = 0 /\
       v_state v = STATE_CREATED /\ v_deadline v = number e + d /\
       v_acceptedAt v = 0)) /\
  (forall id ok s', acceptOrder id e s = Ok ok s' ->
     reads_back id e' s' (fun v =>
       v_buyer v = sender e /\ v_state v = STATE_ACCEPTED /\
       v_acceptedAt v = number e)) /\
  (forall id ok s', fundOrder id e s = Ok ok s' ->
     reads_back id e' s' (fun v =>
       v_locked v = priceOf s id /\ v_state v = STATE_FUNDED)) /\
  (forall id ok s', confirmCompletion id e s = Ok ok s' ->
     reads_back id e' s' (fun v => v_locked v = 0 /\ v_state v = STATE_COMPLETED)) /\
  (forall id ok s', cancelOrder id e s = Ok ok s' ->
     reads_back id e' s' (fun v => v_locked v = 0 /\ v_state v = STATE_CANCELLED)) /\
  (forall id ok s', openDispute id e s = Ok ok s' ->
     reads_back id e' s' (fun v => v_state v = STATE_DISPUTED)).
Proof.
  intros [_ Hn]. unfold reads_back.
  split; [| split; [| split; [| split; [| split]]]].
  - intros p d id s' Hd Hok.
    destruct (createOrder_ok _ _ _ _ _ _ Hok) as (_ & _ & _ & Hov & ->).
    destruct (add64_checked (number e) d Hn Hd) as [E2 E2'].
    assert (Hsum : number e + d <= U64_MAX).
    { destruct (Z.leb_spec (number e + d) U64_MAX); [assumption |].
      cbn [negb] in E2. apply Z.ltb_lt in E2. contradiction. }
    rewrite (E2' Hsum). eexists. rewrite getOrder_eq.
    split; [reflexivity |]. cbn [v_orderId v_seller v_price v_locked v_state v_deadline v_acceptedAt].
    split; [reflexivity |].
    repeat split; store_simpl; try reflexivity.
    apply toU64_small. unfold is_u64 in *. lia.
  - intros id ok s' Hok. rewrite acceptOrder_eq in Hok.
    destruct (stateOf s id =? STATE_CREATED); [| discriminate].
    destruct (number e <=? deadlineOf s id); [| discriminate].
    injection Hok as <- <-. eexists. rewrite getOrder_eq.
    split; [reflexivity |]. cbn [v_orderId v_buyer v_state v_acceptedAt].
    split; [reflexivity |].
    repeat split; store_simpl; try reflexivity. now apply toU64_small.
  - intros id ok s' Hok. rewrite fundOrder_eq in Hok.
    destruct (stateOf s id =? STATE_ACCEPTED); [| discriminate].
    destruct (Address_equals (buyerOf s id) (sender e)); [| discriminate].
    injection Hok as <- <-. eexists. rewrite getOrder_eq.
    split; [reflexivity |]. cbn [v_orderId v_locked v_state].
    split; [reflexivity |].
    repeat split; store_simpl; reflexivity.
  - intros id ok s' Hok. rewrite confirmCompletion_eq in Hok.
    destruct (stateOf s id =? STATE_FUNDED); [| discriminate].
    destruct (Address_equals (buyerOf s id) (sender e)); [| discriminate].
    injection Hok as <- <-. eexists. rewrite getOrder_eq.
    split; [reflexivity |]. cbn [v_orderId v_locked v_state].
    split; [reflexivity |].
    repeat split; store_simpl; reflexivity.
  - intros id ok s' Hok. rewrite cancelOrder_eq in Hok.
    destruct (cancellable (stateOf s id)); [| discriminate].
    destruct (is_party e s id); [| discriminate].
    injection Hok as <- <-. eexists. rewrite getOrder_eq.
    split; [reflexivity |]. cbn [v_orderId v_locked v_state].
    split; [reflexivity |].
    repeat split; store_simpl; reflexivity.
  - intros id ok s' Hok. rewrite openDispute_eq in Hok.
    destruct (stateOf s id =? STATE_FUNDED); [| discriminate].
    destruct (is_party e s id); [| discriminate].
    injection Hok as <- <-. eexists. rewrite getOrder_eq.
    split; [reflexivity |]. cbn [v_orderId v_state].
    split; [reflexivity |].
    store_simpl; reflexivity.
Qed.

Lemma getOrder_reads_back_writes_witness :
  wf_env (mkEnv bob 101) /\
  reads_back 1 (mkEnv alice 200) sample_accepted (fun v =>
    v_buyer v = sender (mkEnv bob 101) /\ v_state v = STATE_ACCEPTED /\
    v_acceptedAt v = number (mkEnv bob 101)).
Proof.
  assert (He : wf_env (mkEnv bob 101)) by in_range.
  split; [exact He |].
  destruct (getOrder_reads_back_writes sample_created (mkEnv bob 101) (mkEnv alice 200) He)
    as (_ & Haccept & _).
  apply (Haccept 1 true). vm_compute. reflexivity.
Defined.

(** * Aborted calls *)

Lemma dispatch_revert (c : Call) (e : Env) (s s_abort : Store) (msg : string) :
  dispatch c e s = Revert msg s_abort ->
  match c with
  | CreateOrder p d => createOrder p d e s = Revert msg s_abort
  | AcceptOrder id => acceptOrder id e s = Revert msg s_abort
  | FundOrder id => fundOrder id e s = Revert msg s_abort
  | ConfirmCompletion id => confirmCompletion id e s = Revert msg s_abort
  | CancelOrder id => cancelOrder id e s = Revert msg s_abort
  | OpenDispute id => openDispute id e s = Revert msg s_abort
  end.
Proof.
  destruct c as [p d | id | id | id | id | id]; unfold dispatch, bind at 1.
  - destruct (createOrder p d e s); [discriminate | intros [= -> ->]; reflexivity].
  - destruct (acceptOrder id e s); [discriminate | intros [= -> ->]; reflexivity].
  - destruct (fundOrder id e s); [discriminate | intros [= -> ->]; reflexivity].
  - destruct (confirmCompletion id e s); [discriminate | intros [= -> ->]; reflexivity].
  - destruct (cancelOrder id e s); [discriminate | intros [= -> ->]; reflexivity].
  - destruct (openDispute id e s); [discriminate | intros [= -> ->]; reflexivity].
Qed.

(** C4.  When the body of a mutating method aborts, the call returns
    nothing and the committed store is the store before the call.  The five
    per-order methods abort before their first write; createOrder does so
    too, except when the deadline sum overflows: that abort comes after the
    counter, seller, price, locked and state writes, which the host then
    discards. *)
Theorem aborted_call_changes_nothing
    (e : Env) (c : Call) (s s_abort : Store) (msg : string) :
  dispatch c e s = Revert msg s_abort ->
  execute (dispatch c) e s = (None, s) /\
  step e c s = s /\
  (order_call c <> None -> s_abort = s) /\
  (forall p d, c = CreateOrder p d ->
     s_abort = s \/
     (wrap64 (number e + d) < number e /\
      s_abort = create_writes1 e p (wrap64 (orderCount s + 1)) s)).
Proof.
  intros Hab.
  split; [unfold execute; now rewrite Hab |].
  split; [now apply (revert_step e c s s_abort msg) |].
  apply dispatch_revert in Hab.
  split.
  - intros Hc.
    destruct c as [p d | id | id | id | id | id]; cbn in Hc; [congruence | ..].
    + rewrite acceptOrder_eq in Hab.
      destruct (stateOf s id =? STATE_CREATED); [| congruence].
      destruct (number e <=? deadlineOf s id); [discriminate | congruence].
    + rewrite fundOrder_eq in Hab.
      destruct (stateOf s id =? STATE_ACCEPTED); [| congruence].
      destruct (Address_equals (buyerOf s id) (sender e)); [discriminate | congruence].
    + rewrite confirmCompletion_eq in Hab.
      destruct (stateOf s id =? STATE_FUNDED); [| congruence].
      destruct (Address_equals (buyerOf s id) (sender e)); [discriminate | congruence].
    + rewrite cancelOrder_eq in Hab.
      destruct (cancellable (stateOf s id)); [| congruence].
      destruct (is_party e s id); [discriminate | congruence].
    + rewrite openDispute_eq in Hab.
      destruct (stateOf s id =? STATE_FUNDED); [| congruence].
      destruct (is_party e s id); [discriminate | congruence].
  - intros p d ->. rewrite createOrder_eq in Hab. cbv zeta in Hab.
    destruct (0 <? p); [| left; congruence].
    destruct (6 <=? d); [| left; congruence].
    destruct (wrap64 (orderCount s + 1) <? orderCount s); [left; congruence |].
    destruct (Z.ltb_spec (wrap64 (number e + d)) (number e)); [| discriminate].
    right. split; [assumption | congruence].
Qed.

Lemma aborted_call_changes_nothing_witness :
  dispatch (CreateOrder 500 6) (mkEnv alice U64_MAX) deployed
    = Revert "SafeMath: addition overflow"
        (create_writes1 (mkEnv alice U64_MAX) 500 1 deployed) /\
  (execute (dispatch (CreateOrder 500 6)) (mkEnv alice U64_MAX) deployed = (None, deployed) /\
   step (mkEnv alice U64_MAX) (CreateOrder 500 6) deployed = deployed /\
   (order_call (CreateOrder 500 6) <> None ->
    create_writes1 (mkEnv alice U64_MAX) 500 1 deployed = deployed) /\
   (forall p d, CreateOrder 500 6 = CreateOrder p d ->
      create_writes1 (mkEnv alice U64_MAX) 500 1 deployed = deployed \/
      (wrap64 (number (mkEnv alice U64_MAX) + d) < number (mkEnv alice U64_MAX) /\
       create_writes1 (mkEnv alice U64_MAX) 500 1 deployed
       = create_writes1 (mkEnv alice U64_MAX) p (wrap64 (orderCount deployed + 1)) deployed))).
Proof.
  assert (Hab : dispatch (CreateOrder 500 6) (mkEnv alice U64_MAX) deployed
                = Revert "SafeMath: addition overflow"
                    (create_writes1 (mkEnv alice U64_MAX) 500 1 deployed))
    by (vm_compute; reflexivity).
  split; [exact Hab |].
  exact (aborted_call_changes_nothing _ _ _ _ _ Hab).
Defined.

(** The writes that precede the overflow abort are real: the store at the
    abort already holds the new counter, and only the roll-back hides it. *)
Example createOrder_abort_after_writes :
  orderCount (create_writes1 (mkEnv alice U64_MAX) 500 1 deployed) = 1 /\
  orderCount deployed = 0 /\
  orderCount (step (mkEnv alice U64_MAX) (CreateOrder 500 6) deployed) = 0.
Proof. repeat split; vm_compute; reflexivity. Qed.

(** * Storage keys *)

Lemma supported_u64 (orderId : Z) : supported orderId -> is_u64 orderId.
Proof. unfold supported, is_u64, U64_MAX. lia. Qed.

Lemma sellerPtr_small (orderId : Z) :
  0 <= orderId <= 65435 -> sellerPtr orderId = 100 + orderId.
Proof.
  intros H. unfold sellerPtr, u16, wrap64, PTR_SELLER_BASE.
  rewrite (Z.mod_small (100 + orderId) (2 ^ 64)) by lia.
  rewrite Z.mod_small by lia. reflexivity.
Qed.

Lemma buyerPtr_small (orderId : Z) :
  0 <= orderId <= 55535 -> buyerPtr orderId = 10000 + orderId.
Proof.
  intros H. unfold buyerPtr, u16, wrap64, PTR_BUYER_BASE.
  rewrite (Z.mod_small (10000 + orderId) (2 ^ 64)) by lia.
  rewrite Z.mod_small by lia. reflexivity.
Qed.

Lemma resolve_reads (s : Store) (orderId : Z) :
  read_slot (resolve OrderCount orderId) s = StoredU256_get PTR_ORDER_COUNT emptySubPtr s /\
  read_slot (resolve Price orderId) s = priceOf s orderId /\
  read_slot (resolve Locked orderId) s = lockedOf s orderId /\
  toU64 (read_slot (resolve State orderId) s) = stateOf s orderId /\
  toU64 (read_slot (resolve Deadline orderId) s) = deadlineOf s orderId /\
  toU64 (read_slot (resolve AcceptedAt orderId) s) = acceptedAtOf s orderId /\
  read_slot (resolve Seller orderId) s = sellerOf s orderId /\
  read_slot (resolve Buyer orderId) s = buyerOf s orderId.
Proof. repeat split. Qed.

Lemma subPtr_shape (orderId : Z) :
  firstn 24 (subPtr orderId) = repeat 0 24 /\ length (subPtr orderId) = 32%nat.
Proof. split; reflexivity. Qed.

Lemma Wide_inj (p p' : Z) (sp sp' : list Z) :
  Wide p sp = Wide p' sp' -> p = p' /\ sp = sp'.
Proof. intros H. injection H as Hp Hsp. now split. Qed.

Lemma Narrow_inj (p p' : Z) : Narrow p = Narrow p' -> p = p'.
Proof. intros H. now injection H. Qed.

Ltac unfold_ptrs :=
  unfold PTR_ORDER_COUNT, PTR_PRICE, PTR_LOCKED, PTR_STATE, PTR_DEADLINE,
    PTR_ACCEPTED_AT in *.

(** C3, as the code has it.  For identifiers from 1 to 9899 two
    (field, order) pairs that resolve to one slot name the same field, and,
    unless that field is the order counter, the same order.  The five word
    fields of an order have pointers 10 to 14 and the sub-key [subPtr]:
    twenty-four zero bytes, then the identifier in eight bytes, most
    significant first; seller is the address slot 100 + orderId and buyer
    the address slot 10000 + orderId.  The order counter is one slot,
    pointer 1 with the all-zero sub-key, whatever the identifier. *)
Theorem resolve_injective (f1 f2 : fieldKind) (id1 id2 : Z) :
  supported id1 -> supported id2 ->
  (resolve f1 id1 = resolve f2 id2 -> f1 = f2 /\ (f1 <> OrderCount -> id1 = id2)) /\
  resolve Seller id1 = Narrow (100 + id1) /\
  resolve Buyer id1 = Narrow (10000 + id1) /\
  resolve OrderCount id1 = Wide 1 (repeat 0 32) /\
  firstn 24 (subPtr id1) = repeat 0 24 /\
  length (subPtr id1) = 32%nat /\
  readBE (subPtr id1) = id1.
Proof.
  intros H1 H2.
  pose proof (supported_u64 id1 H1) as U1.
  pose proof (supported_u64 id2 H2) as U2.
  unfold supported in H1, H2.
  split; [| repeat split].
  - destruct f1, f2; cbn [resolve]; unfold_ptrs; intros H;
      try discriminate H;
      try (split; [reflexivity | intros Hn; try congruence]);
      try (apply Wide_inj in H as [_ H]; now apply subPtr_inj);
      apply Narrow_inj in H;
      rewrite ?sellerPtr_small, ?buyerPtr_small in H by lia;
      first [lia | exfalso; lia].
  - cbn [resolve]. now rewrite sellerPtr_small by lia.
  - cbn [resolve]. now rewrite buyerPtr_small by lia.
  - now apply readBE_subPtr.
Qed.

Lemma resolve_injective_witness :
  supported 7 /\ supported 7 /\
  ((resolve Price 7 = resolve Price 7 -> Price = Price /\ (Price <> OrderCount -> 7 = 7)) /\
   resolve Seller 7 = Narrow (100 + 7) /\
   resolve Buyer 7 = Narrow (10000 + 7) /\
   resolve OrderCount 7 = Wide 1 (repeat 0 32) /\
   firstn 24 (subPtr 7) = repeat 0 24 /\
   length (subPtr 7) = 32%nat /\
   readBE (subPtr 7) = 7).
Proof.
  assert (H7 : supported 7) by (unfold supported; lia).
  split; [exact H7 |]. split; [exact H7 |].
  exact (resolve_injective Price Price 7 7 H7 H7).
Defined.

(** The order counter's slot does not depend on the identifier. *)
Lemma orderCount_slot_ignores_orderId :
  supported 1 /\ supported 2 /\
  (OrderCount, 1) <> (OrderCount, 2) /\
  resolve OrderCount 1 = resolve OrderCount 2 /\
  resolve OrderCount 1 <> Wide PTR_ORDER_COUNT (subPtr 1).
Proof.
  unfold supported. repeat split; try lia.
  - intros H. discriminate H.
  - cbn [resolve]. intros H. injection H as H. vm_compute in H. discriminate H.
Qed.

(** Past 9899 the address pointers meet: the seller slot of order 9901 is
    the buyer slot of order 1. *)
Example seller_slot_meets_buyer_slot :
  resolve Seller 9901 = resolve Buyer 1 /\ resolve Seller 9900 = resolve Buyer 0.
Proof. split; reflexivity. Qed.

(** * The aggregate query *)

Lemma add256_checked (a b : Z) :
  is_u256 a -> is_u256 b ->
  ((a + b) mod 2 ^ 256 <? a) = negb (a + b <=? U256_MAX) /\
  (a + b <= U256_MAX -> (a + b) mod 2 ^ 256 = a + b).
Proof.
  unfold is_u256, U256_MAX. intros Ha Hb.
  destruct (Z.leb_spec (a + b) (2 ^ 256 - 1)) as [Hle | Hgt]; cbn [negb].
  - rewrite Z.mod_small by lia. split; [lia | reflexivity].
  - split; [| lia]. apply Z.ltb_lt.
    replace (a + b) with ((a + b - 2 ^ 256) + 1 * 2 ^ 256) by lia.
    rewrite Z.mod_add by lia. rewrite Z.mod_small by lia. lia.
Qed.

Lemma locked_values_nil (s : Store) (from len : Z) :
  len <= 0 -> locked_values s from len = [].
Proof. intros H. unfold locked_values. now rewrite seqZ_nil. Qed.

Lemma locked_values_cons (s : Store) (from len : Z) :
  0 < len ->
  locked_values s from len =
  if counts_as_locked s from
  then lockedOf s from :: locked_values s (from + 1) (len - 1)
  else locked_values s (from + 1) (len - 1).
Proof.
  intros H. unfold locked_values. rewrite seqZ_cons by assumption.
  cbn [List.filter]. replace (Z.succ from) with (from + 1) by lia.
  replace (Z.pred len) with (len - 1) by lia.
  destruct (counts_as_locked s from); reflexivity.
Qed.

Lemma sum_locked_values_nonneg (s : Store) (len : Z) :
  (forall id, is_u64 id -> is_u256 (lockedOf s id)) ->
  forall from, 0 <= from -> from + len <= U64_MAX + 1 ->
  0 <= sumZ (locked_values s from len).
Proof.
  intros Hwf.
  destruct (Z_le_gt_dec len 0) as [Hle | Hgt].
  { intros from _ _. rewrite locked_values_nil by assumption. cbn. lia. }
  rewrite <- (Z2Nat.id len) by lia.
  induction (Z.to_nat len) as [| n IH]; intros from Hfrom Hend.
  - rewrite locked_values_nil by lia. cbn. lia.
  - rewrite locked_values_cons by lia.
    replace (Z.of_nat (S n) - 1) with (Z.of_nat n) by lia.
    assert (Hrest : 0 <= sumZ (locked_values s (from + 1) (Z.of_nat n)))
      by (apply IH; lia).
    destruct (counts_as_locked s from); [| assumption].
    cbn [sumZ fold_right]. fold (sumZ (locked_values s (from + 1) (Z.of_nat n))).
    assert (Hl : is_u256 (lockedOf s from)) by (apply Hwf; unfold is_u64; lia).
    unfold is_u256 in Hl. lia.
Qed.

Lemma stats_loop_spec (e : Env) (s : Store) (count : Z) :
  (forall id, is_u64 id -> is_u256 (lockedOf s id)) ->
  0 <= count < U64_MAX ->
  forall fuel i total,
    1 <= i <= count + 1 -> is_u256 total ->
    (Z.to_nat (count + 1 - i) < fuel)%nat ->
    stats_loop fuel count i total e s =
    if total + sumZ (locked_values s i (count + 1 - i)) <=? U256_MAX
    then Ok (Some (total + sumZ (locked_values s i (count + 1 - i)))) s
    else Revert "SafeMath: addition overflow" s.
Proof.
  intros Hwf Hcount.
  induction fuel as [| fuel IH]; intros i total Hi Htot Hfuel; [lia |].
  cbn [stats_loop].
  destruct (Z.leb_spec i count) as [Hle | Hgt].
  - rewrite (locked_values_cons s i (count + 1 - i)) by lia.
    replace (count + 1 - i - 1) with (count + 1 - (i + 1)) by lia.
    assert (Hwrap : wrap64 (i + 1) = i + 1)
      by (unfold wrap64; apply Z.mod_small; unfold U64_MAX in *; lia).
    assert (Hrest : 0 <= sumZ (locked_values s (i + 1) (count + 1 - (i + 1))))
      by (apply sum_locked_values_nonneg; [assumption | lia | lia]).
    unfold bind at 1. unfold load at 1. fold (stateOf s i).
    unfold bind at 1. fold (counts_as_locked s i).
    destruct (counts_as_locked s i).
    + unfold bind at 1. unfold load at 1. fold (lockedOf s i).
      assert (Hl : is_u256 (lockedOf s i)) by (apply Hwf; unfold is_u64; lia).
      destruct (add256_checked total (lockedOf s i) Htot Hl) as [E E'].
      unfold SafeMath_add. cbv zeta. rewrite E.
      cbn [sumZ fold_right]. fold (sumZ (locked_values s (i + 1) (count + 1 - (i + 1)))).
      destruct (Z.leb_spec (total + lockedOf s i) U256_MAX) as [Hfit | Hover]; cbn [negb].
      * rewrite (E' Hfit). unfold ret at 1. rewrite Hwrap.
        rewrite IH; [| lia | unfold is_u256 in *; lia | lia].
        rewrite Z.add_assoc. reflexivity.
      * unfold abort.
        destruct (Z.leb_spec
                    (total + (lockedOf s i + sumZ (locked_values s (i + 1) (count + 1 - (i + 1)))))
                    U256_MAX); [lia | reflexivity].
    + unfold ret at 1. rewrite Hwrap. apply IH; [lia | assumption | lia].
  - rewrite locked_values_nil by lia. cbn [sumZ fold_right]. rewrite Z.add_0_r.
    unfold is_u256 in Htot.
    destruct (Z.leb_spec total U256_MAX); [reflexivity | lia].
Qed.

Lemma values_inv_deployed : values_inv deployed.
Proof.
  intros id _. unfold lockedOf, priceOf.
  rewrite !field_deployed by ptr_ne. unfold is_u256, U256_MAX. lia.
Qed.

Lemma zero_u256 : is_u256 0.
Proof. unfold is_u256, U256_MAX. lia. Qed.

Lemma values_inv_transition (e : Env) (c : Call) (s s' : Store) :
  transition e s c s' -> wf_call c -> values_inv s -> values_inv s'.
Proof.
  intros Ht Hc IH id Hid.
  pose proof zero_u256 as Hz.
  destruct Ht as [c | price dl Hp Hd Hcnt Hdl | id' Hst Hh | id' Hst Hb
                 | id' Hst Hb | id' Hst Hb | id' Hst Hb]; cbn in Hc.
  - now apply IH.
  - assert (Hnew : is_u64 (orderCount s + 1))
      by (pose proof (orderCount_range s); unfold is_u64 in *; lia).
    destruct Hc as [Hprice _].
    specialize (IH id Hid). revert IH Hnew.
    generalize (orderCount s + 1) as newId. intros newId IH Hnew.
    destruct (Z.eq_dec id newId) as [-> | Hne]; store_simpl; [split; assumption | exact IH].
  - specialize (IH id Hid).
    destruct (Z.eq_dec id id') as [-> | Hne]; store_simpl; exact IH.
  - specialize (IH id Hid).
    destruct (Z.eq_dec id id') as [-> | Hne]; store_simpl; [split; apply IH | exact IH].
  - specialize (IH id Hid).
    destruct (Z.eq_dec id id') as [-> | Hne]; store_simpl;
      [split; [assumption | apply IH] | exact IH].
  - specialize (IH id Hid).
    destruct (Z.eq_dec id id') as [-> | Hne]; store_simpl;
      [split; [assumption | apply IH] | exact IH].
  - specialize (IH id Hid).
    destruct (Z.eq_dec id id') as [-> | Hne]; store_simpl; exact IH.
Qed.

Lemma values_inv_reachable (P : Env -> Prop) (s : Store) :
  reachable_from P deployed s -> values_inv s.
Proof.
  induction 1 as [| s e c Hr IH HP He Hc].
  - apply values_inv_deployed.
  - apply (values_inv_transition e c s); auto using step_transition.
Qed.

Lemma run_reachable (P : Env -> Prop) (calls : list (Env * Call)) (s0 : Store) :
  Forall (fun ec => P (fst ec) /\ wf_env (fst ec) /\ wf_call (snd ec)) calls ->
  forall s, reachable_from P s0 s -> reachable_from P s0 (run calls s).
Proof.
  induction 1 as [| [e c] rest (HP & He & Hc) Hrest IH]; intros s Hs; cbn [run].
  - exact Hs.
  - apply IH. now apply reach_step.
Qed.

Lemma sample_stats_reachable : reachable sample_stats.
Proof.
  apply run_reachable; [| apply reach_refl].
  unfold stats_calls.
  repeat (apply List.Forall_cons; [cbn [fst snd]; split; [exact I | split; in_range] |]).
  apply List.Forall_nil.
Qed.

(** In a reachable store whose counter is below the largest 64-bit value,
    getEscrowStats, given enough iterations, leaves the store as it is and
    returns (total, total, orderCount), where total is the sum of the
    locked values of the orders 1..orderCount that are Funded or Disputed;
    when that sum does not fit 256 bits the checked addition aborts. *)
Theorem getEscrowStats_total (s : Store) (e : Env) (fuel : nat) :
  reachable s -> orderCount s < U64_MAX ->
  (Z.to_nat (orderCount s) < fuel)%nat ->
  getEscrowStats fuel e s =
  if totalLocked_spec s <=? U256_MAX
  then Ok (Some (totalLocked_spec s, totalLocked_spec s, orderCount s)) s
  else Revert "SafeMath: addition overflow" s.
Proof.
  intros Hr Hcnt Hfuel.
  pose proof (orderCount_range s) as Hrange. unfold is_u64 in Hrange.
  unfold getEscrowStats. unfold bind at 1. unfold load at 1. fold (orderCount s).
  unfold bind at 1.
  rewrite (stats_loop_spec e s (orderCount s));
    [ | intros id Hid; apply (values_inv_reachable _ s Hr id Hid)
      | lia | lia | apply zero_u256
      | replace (orderCount s + 1 - 1) with (orderCount s) by lia; assumption ].
  replace (orderCount s + 1 - 1) with (orderCount s) by lia.
  rewrite Z.add_0_l. fold (totalLocked_spec s).
  destruct (totalLocked_spec s <=? U256_MAX); reflexivity.
Qed.

Lemma getEscrowStats_total_witness :
  reachable sample_stats /\ orderCount sample_stats < U64_MAX /\
  (Z.to_nat (orderCount sample_stats) < 4)%nat /\
  getEscrowStats 4 (mkEnv alice 200) sample_stats =
  (if totalLocked_spec sample_stats <=? U256_MAX
   then Ok (Some (totalLocked_spec sample_stats, totalLocked_spec sample_stats,
                  orderCount sample_stats)) sample_stats
   else Revert "SafeMath: addition overflow" sample_stats).
Proof.
  assert (Hc : orderCount sample_stats < U64_MAX) by (vm_compute; reflexivity).
  assert (Hf : (Z.to_nat (orderCount sample_stats) < 4)%nat)
    by (apply Nat.ltb_lt; vm_compute; reflexivity).
  split; [apply sample_stats_reachable |]. split; [exact Hc |]. split; [exact Hf |].
  exact (getEscrowStats_total sample_stats (mkEnv alice 200) 4 sample_stats_reachable Hc Hf).
Defined.

Example stats_of_three_orders :
  getEscrowStats 4 (mkEnv alice 200) sample_stats = Ok (Some (800, 800, 3)) sample_stats /\
  totalLocked_spec sample_stats = 800.
Proof. split; vm_compute; reflexivity. Qed.

(** With the counter at the largest 64-bit value the loop variable wraps
    to zero instead of passing the counter: the scan never returns a
    total, whatever the fuel. *)
Lemma stats_loop_at_max (e : Env) (fuel : nat) :
  forall i total s, is_u64 i ->
  forall r s', stats_loop fuel U64_MAX i total e s = Ok r s' -> r = None.
Proof.
  induction fuel as [| fuel IH]; intros i total s Hi r s' Hrun; cbn [stats_loop] in Hrun.
  - unfold ret in Hrun. congruence.
  - unfold is_u64 in Hi.
    destruct (Z.leb_spec i U64_MAX) as [_ | Hgt]; [| lia].
    unfold bind at 1 in Hrun. unfold load at 1 in Hrun.
    unfold bind at 1 in Hrun.
    match type of Hrun with
    | match ?m with _ => _ end = _ => destruct m as [t s1 | msg s1] eqn:Hsum
    end; [| discriminate].
    exact (IH (wrap64 (i + 1)) t s1 (toU64_range (i + 1)) r s' Hrun).
Qed.

(** * The buyer field *)

(** How the counter, a state word and a buyer slot read after the writes
    of each method. *)
Section Frames.
Variables (e : Env) (s : Store).

Lemma orderCount_create (p newId dl : Z) :
  is_u64 newId -> orderCount (create_writes e p newId dl s) = newId.
Proof. intros H. store_simpl. now apply toU64_small. Qed.

Lemma orderCount_accept (id' : Z) : orderCount (accept_writes e id' s) = orderCount s.
Proof. store_simpl. reflexivity. Qed.

Lemma orderCount_fund (id' : Z) : orderCount (fund_writes id' s) = orderCount s.
Proof. store_simpl. reflexivity. Qed.

Lemma orderCount_release (st id' : Z) : orderCount (release_writes st id' s) = orderCount s.
Proof. store_simpl. reflexivity. Qed.

Lemma orderCount_dispute (id' : Z) : orderCount (dispute_writes id' s) = orderCount s.
Proof. store_simpl. reflexivity. Qed.

Lemma stateOf_create (p newId dl id : Z) :
  is_u64 newId -> is_u64 id ->
  stateOf (create_writes e p newId dl s) id =
  if decide (id = newId) then STATE_CREATED else stateOf s id.
Proof. intros Hn Hi. case_decide as Hd; [subst |]; store_simpl; reflexivity. Qed.

Lemma stateOf_accept (id' id : Z) :
  is_u64 id' -> is_u64 id ->
  stateOf (accept_writes e id' s) id =
  if decide (id = id') then STATE_ACCEPTED else stateOf s id.
Proof. intros Hn Hi. case_decide as Hd; [subst |]; store_simpl; reflexivity. Qed.

Lemma stateOf_fund (id' id : Z) :
  is_u64 id' -> is_u64 id ->
  stateOf (fund_writes id' s) id =
  if decide (id = id') then STATE_FUNDED else stateOf s id.
Proof. intros Hn Hi. case_decide as Hd; [subst |]; store_simpl; reflexivity. Qed.

Lemma stateOf_release (st id' id : Z) :
  is_u64 id' -> is_u64 id ->
  stateOf (release_writes st id' s) id =
  if decide (id = id') then toU64 st else stateOf s id.
Proof. intros Hn Hi. case_decide as Hd; [subst |]; store_simpl; reflexivity. Qed.

Lemma stateOf_dispute (id' id : Z) :
  is_u64 id' -> is_u64 id ->
  stateOf (dispute_writes id' s) id =
  if decide (id = id') then STATE_DISPUTED else stateOf s id.
Proof. intros Hn Hi. case_decide as Hd; [subst |]; store_simpl; reflexivity. Qed.

Lemma buyerOf_create (p newId dl id : Z) :
  buyerOf (create_writes e p newId dl s) id =
  if decide (sellerPtr newId = buyerPtr id) then sender e else buyerOf s id.
Proof.
  case_decide as Hd.
  - store_simpl. rewrite Hd. store_simpl. reflexivity.
  - store_simpl. reflexivity.
Qed.

Lemma buyerOf_accept (id' id : Z) :
  buyerOf (accept_writes e id' s) id =
  if decide (buyerPtr id' = buyerPtr id) then sender e else buyerOf s id.
Proof.
  case_decide as Hd.
  - store_simpl. rewrite Hd. store_simpl. reflexivity.
  - store_simpl. reflexivity.
Qed.

Lemma buyerOf_fund (id' id : Z) : buyerOf (fund_writes id' s) id = buyerOf s id.
Proof. store_simpl. reflexivity. Qed.

Lemma buyerOf_release (st id' id : Z) : buyerOf (release_writes st id' s) id = buyerOf s id.
Proof. store_simpl. reflexivity. Qed.

Lemma buyerOf_dispute (id' id : Z) : buyerOf (dispute_writes id' s) id = buyerOf s id.
Proof. store_simpl. reflexivity. Qed.

End Frames.

Ltac frames :=
  rewrite ?orderCount_create, ?orderCount_accept, ?orderCount_fund,
    ?orderCount_release, ?orderCount_dispute, ?stateOf_create, ?stateOf_accept,
    ?stateOf_fund, ?stateOf_release, ?stateOf_dispute, ?buyerOf_create,
    ?buyerOf_accept, ?buyerOf_fund, ?buyerOf_release, ?buyerOf_dispute
    in * by assumption.

Lemma next_id_u64 (s : Store) : orderCount s + 1 <= U64_MAX -> is_u64 (orderCount s + 1).
Proof. pose proof (orderCount_range s). unfold is_u64 in *. lia. Qed.

Lemma exists_inv_deployed : exists_inv deployed.
Proof. intros id. rewrite orderCount_deployed. lia. Qed.

Lemma exists_inv_transition (e : Env) (c : Call) (s s' : Store) :
  transition e s c s' -> wf_call c -> exists_inv s -> exists_inv s'.
Proof.
  intros Ht Hc IH id Hid.
  assert (Hu : is_u64 id)
    by (pose proof (orderCount_range s'); unfold is_u64 in *; lia).
  destruct Ht as [c | price dl Hp Hd Hcnt Hdl | id' Hst Hh | id' Hst Hb
                 | id' Hst Hb | id' Hst Hb | id' Hst Hb]; cbn in Hc.
  - now apply IH.
  - pose proof (next_id_u64 s Hcnt) as Hnew. frames.
    case_decide; [discriminate | apply IH; lia].
  - frames. case_decide; [discriminate | now apply IH].
  - frames. case_decide; [discriminate | now apply IH].
  - frames. case_decide; [discriminate | now apply IH].
  - frames. case_decide; [discriminate | now apply IH].
  - frames. case_decide; [discriminate | now apply IH].
Qed.

Lemma no_buyer_inv_deployed : no_buyer_inv deployed.
Proof.
  intros id _ _. left. unfold stateOf. rewrite field_deployed by ptr_ne. reflexivity.
Qed.

Lemma no_buyer_inv_transition (e : Env) (c : Call) (s s' : Store) :
  transition e s c s' -> wf_call c -> nonzero_sender e ->
  no_buyer_inv s -> no_buyer_inv s'.
Proof.
  intros Ht Hc Hnz IH id Hu Hzero. unfold nonzero_sender in Hnz.
  destruct Ht as [c | price dl Hp Hd Hcnt Hdl | id' Hst Hh | id' Hst Hb
                 | id' Hst Hb | id' Hst Hb | id' Hst Hb]; cbn in Hc.
  - now apply IH.
  - pose proof (next_id_u64 s Hcnt) as Hnew. frames.
    case_decide; [contradiction |].
    case_decide; [right; left; reflexivity | now apply IH].
  - frames. case_decide; [contradiction |].
    case_decide; [subst; congruence | now apply IH].
  - frames. case_decide; [| now apply IH]. subst.
    destruct (IH id' Hu Hzero) as [H | [H | H]]; rewrite Hst in H; discriminate H.
  - frames. case_decide; [| now apply IH]. subst.
    destruct (IH id' Hu Hzero) as [H | [H | H]]; rewrite Hst in H; discriminate H.
  - frames. case_decide; [right; right; reflexivity | now apply IH].
  - frames. case_decide; [| now apply IH]. subst.
    destruct (IH id' Hu Hzero) as [H | [H | H]]; rewrite Hst in H; discriminate H.
Qed.

Lemma created_inv_deployed : created_inv deployed.
Proof. intros _ id _ _. unfold buyerOf. apply address_deployed. Qed.

Lemma created_inv_transition (e : Env) (c : Call) (s s' : Store) :
  transition e s c s' -> wf_call c -> fresh_inv s ->
  created_inv s -> created_inv s'.
Proof.
  intros Ht Hc Hfresh IH Hmax id Hid Hst0.
  pose proof (supported_u64 id Hid) as Hu.
  pose proof (transition_count_le e c s s' Ht) as Hle.
  specialize (IH ltac:(lia)).
  unfold supported in Hid.
  destruct Ht as [c | price dl Hp Hd Hcnt Hdl | id' Hst Hh | id' Hst Hb
                 | id' Hst Hb | id' Hst Hb | id' Hst Hb]; cbn in Hc.
  - now apply IH.
  - pose proof (next_id_u64 s Hcnt) as Hnew.
    pose proof (orderCount_range s) as Hr. unfold is_u64 in Hr.
    frames.
    rewrite sellerPtr_small, buyerPtr_small by lia.
    destruct (decide (100 + (orderCount s + 1) = 10000 + id)) as [Hal | _]; [lia |].
    destruct (decide (id = orderCount s + 1)) as [Heq | _]; [| now apply IH].
    subst id. apply IH; [unfold supported; lia |].
    left. apply Hfresh; [assumption | lia].
  - assert (Hsup : 1 <= id' <= 9899).
    { destruct (Z_le_gt_dec id' 0) as [H0 | H0];
        [ rewrite (Hfresh id' Hc) in Hst by (unfold is_u64 in Hc; lia); discriminate Hst |].
      destruct (Z_le_gt_dec id' (orderCount s)) as [H1 | H1]; [lia |].
      rewrite (Hfresh id' Hc) in Hst by lia. discriminate Hst. }
    frames. rewrite !buyerPtr_small by lia.
    destruct (decide (id = id')) as [Heq | Hne].
    + destruct Hst0 as [H | H]; discriminate H.
    + destruct (decide (10000 + id' = 10000 + id)) as [Hal | _]; [lia | now apply IH].
  - frames. destruct (decide (id = id')) as [Heq | Hne]; [| now apply IH].
    destruct Hst0 as [H | H]; discriminate H.
  - frames. destruct (decide (id = id')) as [Heq | Hne]; [| now apply IH].
    destruct Hst0 as [H | H]; discriminate H.
  - frames. destruct (decide (id = id')) as [Heq | Hne]; [| now apply IH].
    destruct Hst0 as [H | H]; discriminate H.
  - frames. destruct (decide (id = id')) as [Heq | Hne]; [| now apply IH].
    destruct Hst0 as [H | H]; discriminate H.
Qed.

Lemma reachable_weaken (P : Env -> Prop) (s0 s : Store) :
  reachable_from P s0 s -> reachable_from (fun _ => True) s0 s.
Proof.
  induction 1 as [| s e c Hr IH HP He Hc]; [apply reach_refl |].
  now apply reach_step.
Qed.

Lemma buyer_invs_reachable (s : Store) :
  reachable_from nonzero_sender deployed s ->
  exists_inv s /\ no_buyer_inv s /\ created_inv s.
Proof.
  induction 1 as [| s e c Hr (IHe & IHn & IHc) HP He Hc].
  - split; [apply exists_inv_deployed |].
    split; [apply no_buyer_inv_deployed | apply created_inv_deployed].
  - pose proof (step_transition e c s He Hc) as Ht.
    split; [now apply (exists_inv_transition e c s) |].
    split; [now apply (no_buyer_inv_transition e c s) |].
    apply (created_inv_transition e c s); try assumption.
    apply (fresh_inv_reachable nonzero_sender). exact Hr.
Qed.

(** C6, as the code has it.  In a store reached by calls from nonzero
    addresses, an existing order whose buyer is the zero address is Created
    or Cancelled (an order cancelled before it was accepted never gets a
    buyer); and while at most 9899 orders exist, a Created order has the
    zero buyer. *)
Theorem buyer_zero_created_or_cancelled (s : Store) (orderId : Z) :
  reachable_from nonzero_sender deployed s ->
  1 <= orderId <= orderCount s ->
  (buyerOf s orderId = Address_zero ->
   stateOf s orderId = STATE_CREATED \/ stateOf s orderId = STATE_CANCELLED) /\
  (orderCount s <= 9899 -> stateOf s orderId = STATE_CREATED ->
   buyerOf s orderId = Address_zero).
Proof.
  intros Hr Hid.
  destruct (buyer_invs_reachable s Hr) as (He & Hn & Hc).
  pose proof (orderCount_range s) as Hrange.
  assert (Hu : is_u64 orderId) by (unfold is_u64 in *; lia).
  split.
  - intros Hzero. destruct (Hn orderId Hu Hzero) as [H0 | H]; [| exact H].
    exfalso. now apply (He orderId Hid).
  - intros Hmax Hst. apply (Hc Hmax orderId); [unfold supported; lia |].
    right. exact Hst.
Qed.

Lemma sample_cancelled_early_reachable :
  reachable_from nonzero_sender deployed sample_cancelled_early.
Proof.
  apply reach_step; [| discriminate | in_range | in_range].
  apply reach_step; [apply reach_refl | discriminate | in_range | in_range].
Qed.

Lemma buyer_zero_created_or_cancelled_witness :
  reachable_from nonzero_sender deployed sample_cancelled_early /\
  1 <= 1 <= orderCount sample_cancelled_early /\
  ((buyerOf sample_cancelled_early 1 = Address_zero ->
    stateOf sample_cancelled_early 1 = STATE_CREATED \/
    stateOf sample_cancelled_early 1 = STATE_CANCELLED) /\
   (orderCount sample_cancelled_early <= 9899 ->
    stateOf sample_cancelled_early 1 = STATE_CREATED ->
    buyerOf sample_cancelled_early 1 = Address_zero)).
Proof.
  assert (Hid : 1 <= 1 <= orderCount sample_cancelled_early)
    by (split; apply Z.leb_le; vm_compute; reflexivity).
  split; [apply sample_cancelled_early_reachable |]. split; [exact Hid |].
  exact (buyer_zero_created_or_cancelled sample_cancelled_early 1
           sample_cancelled_early_reachable Hid).
Defined.

(** An order cancelled by its seller before anyone accepted it is
    Cancelled and still has the zero buyer. *)
Lemma cancelled_before_acceptance_has_no_buyer :
  reachable sample_cancelled_early /\
  1 <= 1 <= orderCount sample_cancelled_early /\
  buyerOf sample_cancelled_early 1 = Address_zero /\
  stateOf sample_cancelled_early 1 = STATE_CANCELLED /\
  ~ (buyerOf sample_cancelled_early 1 = Address_zero <->
     stateOf sample_cancelled_early 1 = STATE_CREATED).
Proof.
  assert (Hb : buyerOf sample_cancelled_early 1 = Address_zero) by (vm_compute; reflexivity).
  assert (Hs : stateOf sample_cancelled_early 1 = STATE_CANCELLED) by (vm_compute; reflexivity).
  split; [apply (reachable_weaken nonzero_sender), sample_cancelled_early_reachable |].
  split; [split; apply Z.leb_le; vm_compute; reflexivity |].
  split; [exact Hb |]. split; [exact Hs |].
  intros [Hiff _]. specialize (Hiff Hb). rewrite Hs in Hiff. discriminate Hiff.
Qed.

(** Why the amended statement asks for nonzero callers: an acceptance made
    from the zero address leaves an Accepted order with the zero buyer. *)
Example accepted_by_zero_address :
  let s := step (mkEnv Address_zero 101) (AcceptOrder 1) sample_created in
  stateOf s 1 = STATE_ACCEPTED /\ buyerOf s 1 = Address_zero.
Proof. split; vm_compute; reflexivity. Qed.

(** Why it asks for at most 9899 orders: creating order 9901 writes its
    seller into the buyer slot of order 1. *)
Example seller_write_lands_in_buyer_slot (s : Store) :
  buyerOf (create_writes (mkEnv alice 100) 500 9901 106 s) 1 = alice.
Proof. rewrite buyerOf_create. reflexivity. Qed.

Lemma create_many_reachable (n : nat) :
  forall s, reachable_from nonzero_sender deployed s ->
  reachable_from nonzero_sender deployed (create_many n s).
Proof.
  induction n as [| n IH]; intros s Hs; cbn [create_many]; [exact Hs |].
  apply IH. apply reach_step; [exact Hs | discriminate | in_range | in_range].
Qed.

(** After 9901 creations and no other call (a store [create_many_reachable]
    shows reachable), order 1 is still Created and its buyer slot holds the
    seller of order 9901. *)
Example created_order_with_a_buyer :
  let s := create_many (Z.to_nat 9901) deployed in
  orderCount s = 9901 /\ stateOf s 1 = STATE_CREATED /\ buyerOf s 1 = alice.
Proof. vm_compute. repeat split. Qed.

(** * When each method returns *)

(** createOrder returns exactly when the price is positive, the deadline
    is at least six blocks away, the counter is below the largest 64-bit
    value and the deadline height fits 64 bits; the first three failures
    abort before any write, each with its own message. *)
Theorem createOrder_succeeds_exactly (s : Store) (e : Env) (p d : Z) :
  is_u64 (number e) -> is_u64 d ->
  ((exists id s', createOrder p d e s = Ok id s') <->
   (0 < p /\ 6 <= d /\ orderCount s < U64_MAX /\ number e + d <= U64_MAX)) /\
  (p = 0 -> createOrder p d e s = Revert "Price must be > 0" s) /\
  (0 < p -> d < 6 -> createOrder p d e s = Revert "Deadline must be >= 6 blocks" s) /\
  (0 < p -> 6 <= d -> orderCount s = U64_MAX ->
   createOrder p d e s = Revert "SafeMath: addition overflow" s).
Proof.
  intros Hn Hd. rewrite createOrder_eq. cbv zeta.
  destruct (add64_checked (orderCount s) 1 (orderCount_range s)) as [E1 E1'];
    [unfold is_u64, U64_MAX; lia |].
  destruct (add64_checked (number e) d Hn Hd) as [E2 E2'].
  rewrite E1, E2.
  destruct (Z.ltb_spec 0 p) as [Hp | Hp];
    [| split; [split; [intros (id & s' & H); discriminate | lia]
              | repeat split; intros; first [reflexivity | lia]]].
  destruct (Z.leb_spec 6 d) as [H6 | H6];
    [| split; [split; [intros (id & s' & H); discriminate | lia]
              | repeat split; intros; first [reflexivity | lia]]].
  destruct (Z.leb_spec (orderCount s + 1) U64_MAX) as [Hc | Hc]; cbn [negb];
    [| split; [split; [intros (id & s' & H); discriminate | lia]
              | repeat split; intros; first [reflexivity | lia]]].
  destruct (Z.leb_spec (number e + d) U64_MAX) as [Hs | Hs]; cbn [negb].
  - split; [split; [lia | eauto] | repeat split; intros; lia].
  - split; [split; [intros (id & s' & H); discriminate | lia]
           | repeat split; intros; lia].
Qed.

Lemma createOrder_succeeds_exactly_witness :
  is_u64 (number (mkEnv alice 100)) /\ is_u64 6 /\
  (((exists id s', createOrder 500 6 (mkEnv alice 100) deployed = Ok id s') <->
    (0 < 500 /\ 6 <= 6 /\ orderCount deployed < U64_MAX /\
     number (mkEnv alice 100) + 6 <= U64_MAX)) /\
   (500 = 0 -> createOrder 500 6 (mkEnv alice 100) deployed = Revert "Price must be > 0" deployed) /\
   (0 < 500 -> 6 < 6 ->
    createOrder 500 6 (mkEnv alice 100) deployed
    = Revert "Deadline must be >= 6 blocks" deployed) /\
   (0 < 500 -> 6 <= 6 -> orderCount deployed = U64_MAX ->
    createOrder 500 6 (mkEnv alice 100) deployed
    = Revert "SafeMath: addition overflow" deployed)).
Proof.
  assert (Hn : is_u64 (number (mkEnv alice 100))) by in_range.
  assert (Hd : is_u64 6) by in_range.
  split; [exact Hn |]. split; [exact Hd |].
  exact (createOrder_succeeds_exactly deployed (mkEnv alice 100) 500 6 Hn Hd).
Defined.

(** fundOrder returns exactly when the order is Accepted and the caller is
    its recorded buyer.  It then sets locked to the price and the state to
    Funded, and leaves every other field of the order and the counter as
    they were. *)
Theorem fundOrder_succeeds_exactly (s : Store) (e : Env) (orderId : Z) :
  ((exists s', fundOrder orderId e s = Ok true s') <->
   (stateOf s orderId = STATE_ACCEPTED /\ buyerOf s orderId = sender e)) /\
  (stateOf s orderId <> STATE_ACCEPTED ->
   fundOrder orderId e s = Revert "Order not in Accepted state" s) /\
  (stateOf s orderId = STATE_ACCEPTED -> buyerOf s orderId <> sender e ->
   fundOrder orderId e s = Revert "Only buyer can fund" s) /\
  (forall ok s', fundOrder orderId e s = Ok ok s' ->
     ok = true /\
     lockedOf s' orderId = priceOf s orderId /\
     stateOf s' orderId = STATE_FUNDED /\
     priceOf s' orderId = priceOf s orderId /\
     deadlineOf s' orderId = deadlineOf s orderId /\
     acceptedAtOf s' orderId = acceptedAtOf s orderId /\
     sellerOf s' orderId = sellerOf s orderId /\
     buyerOf s' orderId = buyerOf s orderId /\
     orderCount s' = orderCount s).
Proof.
  rewrite fundOrder_eq. unfold Address_equals.
  destruct (Z.eqb_spec (stateOf s orderId) STATE_ACCEPTED) as [Hst | Hst];
    [destruct (Z.eqb_spec (buyerOf s orderId) (sender e)) as [Hb | Hb] |].
  - split; [split; [tauto | eauto] |].
    split; [tauto |]. split; [tauto |].
    intros ok s' [= <- <-]. repeat split; store_simpl; reflexivity.
  - split; [split; [intros [s' H]; discriminate | tauto] |].
    split; [tauto |]. split; [reflexivity |]. intros ok s' H; discriminate.
  - split; [split; [intros [s' H]; discriminate | tauto] |].
    split; [reflexivity |]. split; [tauto |]. intros ok s' H; discriminate.
Qed.

(** confirmCompletion returns exactly when the order is Funded and the
    caller is its recorded buyer.  It then sets locked to zero and the state
    to Completed, and leaves every other field of the order and the counter
    as they were. *)
Theorem confirmCompletion_succeeds_exactly (s : Store) (e : Env) (orderId : Z) :
  ((exists s', confirmCompletion orderId e s = Ok true s') <->
   (stateOf s orderId = STATE_FUNDED /\ buyerOf s orderId = sender e)) /\
  (stateOf s orderId <> STATE_FUNDED ->
   confirmCompletion orderId e s = Revert "Order not in Funded state" s) /\
  (stateOf s orderId = STATE_FUNDED -> buyerOf s orderId <> sender e ->
   confirmCompletion orderId e s = Revert "Only buyer can confirm" s) /\
  (forall ok s', confirmCompletion orderId e s = Ok ok s' ->
     ok = true /\
     lockedOf s' orderId = 0 /\
     stateOf s' orderId = STATE_COMPLETED /\
     priceOf s' orderId = priceOf s orderId /\
     deadlineOf s' orderId = deadlineOf s orderId /\
     acceptedAtOf s' orderId = acceptedAtOf s orderId /\
     sellerOf s' orderId = sellerOf s orderId /\
     buyerOf s' orderId = buyerOf s orderId /\
     orderCount s' = orderCount s).
Proof.
  rewrite confirmCompletion_eq. unfold Address_equals.
  destruct (Z.eqb_spec (stateOf s orderId) STATE_FUNDED) as [Hst | Hst];
    [destruct (Z.eqb_spec (buyerOf s orderId) (sender e)) as [Hb | Hb] |].
  - split; [split; [tauto | eauto] |].
    split; [tauto |]. split; [tauto |].
    intros ok s' [= <- <-]. repeat split; store_simpl; reflexivity.
  - split; [split; [intros [s' H]; discriminate | tauto] |].
    split; [tauto |]. split; [reflexivity |]. intros ok s' H; discriminate.
  - split; [split; [intros [s' H]; discriminate | tauto] |].
    split; [reflexivity |]. split; [tauto |]. intros ok s' H; discriminate.
Qed.

(** cancelOrder returns exactly when the order is Created, Accepted, Funded
    or Disputed and the caller is its seller or its buyer.  It then sets
    locked to zero and the state to Cancelled, and leaves every other field
    of the order and the counter as they were. *)
Theorem cancelOrder_succeeds_exactly (s : Store) (e : Env) (orderId : Z) :
  ((exists s', cancelOrder orderId e s = Ok true s') <->
   ((stateOf s orderId = STATE_CREATED \/ stateOf s orderId = STATE_ACCEPTED \/
     stateOf s orderId = STATE_FUNDED \/ stateOf s orderId = STATE_DISPUTED) /\
    (sellerOf s orderId = sender e \/ buyerOf s orderId = sender e))) /\
  (cancellable (stateOf s orderId) = false ->
   cancelOrder orderId e s = Revert "Cannot cancel in current state" s) /\
  (cancellable (stateOf s orderId) = true ->
   sellerOf s orderId <> sender e -> buyerOf s orderId <> sender e ->
   cancelOrder orderId e s = Revert "Only seller or buyer can cancel" s) /\
  (forall ok s', cancelOrder orderId e s = Ok ok s' ->
     ok = true /\
     lockedOf s' orderId = 0 /\
     stateOf s' orderId = STATE_CANCELLED /\
     priceOf s' orderId = priceOf s orderId /\
     deadlineOf s' orderId = deadlineOf s orderId /\
     acceptedAtOf s' orderId = acceptedAtOf s orderId /\
     sellerOf s' orderId = sellerOf s orderId /\
     buyerOf s' orderId = buyerOf s orderId /\
     orderCount s' = orderCount s).
Proof.
  rewrite cancelOrder_eq.
  pose proof (cancellable_true (stateOf s orderId)) as Hc.
  pose proof (is_party_true e s orderId) as Hp. unfold is_partyP in Hp.
  destruct (cancellable (stateOf s orderId)); [destruct (is_party e s orderId) |].
  - split; [split; [intros _; split; [now apply Hc | now apply Hp] | eauto] |].
    split; [discriminate |].
    split; [intros _ H1 H2; destruct Hp as [Hp _]; destruct (Hp eq_refl); contradiction |].
    intros ok s' [= <- <-]. repeat split; store_simpl; reflexivity.
  - split; [split; [intros [s' H]; discriminate
                   | intros [_ H]; apply Hp in H; discriminate] |].
    split; [discriminate |]. split; [reflexivity |]. intros ok s' H; discriminate.
  - split; [split; [intros [s' H]; discriminate
                   | intros [H _]; apply Hc in H; discriminate] |].
    split; [reflexivity |]. split; [discriminate |]. intros ok s' H; discriminate.
Qed.

(** openDispute returns exactly when the order is Funded and the caller is
    its seller or its buyer.  It then sets the state to Disputed and leaves
    the locked amount, every other field of the order and the counter as
    they were. *)
Theorem openDispute_succeeds_exactly (s : Store) (e : Env) (orderId : Z) :
  ((exists s', openDispute orderId e s = Ok true s') <->
   (stateOf s orderId = STATE_FUNDED /\
    (sellerOf s orderId = sender e \/ buyerOf s orderId = sender e))) /\
  (stateOf s orderId <> STATE_FUNDED ->
   openDispute orderId e s = Revert "Can only dispute Funded orders" s) /\
  (stateOf s orderId = STATE_FUNDED ->
   sellerOf s orderId <> sender e -> buyerOf s orderId <> sender e ->
   openDispute orderId e s = Revert "Only seller or buyer can open dispute" s) /\
  (forall ok s', openDispute orderId e s = Ok ok s' ->
     ok = true /\
     stateOf s' orderId = STATE_DISPUTED /\
     lockedOf s' orderId = lockedOf s orderId /\
     priceOf s' orderId = priceOf s orderId /\
     deadlineOf s' orderId = deadlineOf s orderId /\
     acceptedAtOf s' orderId = acceptedAtOf s orderId /\
     sellerOf s' orderId = sellerOf s orderId /\
     buyerOf s' orderId = buyerOf s orderId /\
     orderCount s' = orderCount s).
Proof.
  rewrite openDispute_eq.
  pose proof (is_party_true e s orderId) as Hp. unfold is_partyP in Hp.
  destruct (Z.eqb_spec (stateOf s orderId) STATE_FUNDED) as [Hst | Hst];
    [destruct (is_party e s orderId) |].
  - split; [split; [intros _; split; [assumption | now apply Hp] | eauto] |].
    split; [tauto |].
    split; [intros _ H1 H2; destruct Hp as [Hp _]; destruct (Hp eq_refl); contradiction |].
    intros ok s' [= <- <-]. repeat split; store_simpl; reflexivity.
  - split; [split; [intros [s' H]; discriminate
                   | intros [_ H]; apply Hp in H; discriminate] |].
    split; [tauto |]. split; [reflexivity |]. intros ok s' H; discriminate.
  - split; [split; [intros [s' H]; discriminate | tauto] |].
    split; [reflexivity |]. split; [tauto |]. intros ok s' H; discriminate.
Qed.

(** * Who may act, and on what *)

(** fundOrder, confirmCompletion, cancelOrder and openDispute check the
    caller against the addresses recorded for the order they name: called
    by anyone who is neither its recorded seller nor its recorded buyer,
    each of the four aborts before any write. *)
Theorem outsider_calls_abort (s : Store) (e : Env) (c : Call) (orderId : Z) :
  order_call c = Some orderId -> c <> AcceptOrder orderId ->
  sellerOf s orderId <> sender e -> buyerOf s orderId <> sender e ->
  (exists msg, dispatch c e s = Revert msg s) /\ step e c s = s.
Proof.
  intros Hc Hna Hs Hb.
  assert (Hp : is_party e s orderId = false).
  { destruct (is_party e s orderId) eqn:Hp; [| reflexivity].
    apply is_party_true in Hp. destruct Hp; contradiction. }
  assert (Hbe : Address_equals (buyerOf s orderId) (sender e) = false)
    by (unfold Address_equals; now apply Z.eqb_neq).
  assert (Hab : exists msg, dispatch c e s = Revert msg s).
  { destruct c as [p d | id | id | id | id | id]; cbn in Hc; try discriminate;
      injection Hc as ->; unfold dispatch, bind at 1.
    - congruence.
    - rewrite fundOrder_eq, Hbe. destruct (stateOf s orderId =? STATE_ACCEPTED); eauto.
    - rewrite confirmCompletion_eq, Hbe. destruct (stateOf s orderId =? STATE_FUNDED); eauto.
    - rewrite cancelOrder_eq, Hp. destruct (cancellable (stateOf s orderId)); eauto.
    - rewrite openDispute_eq, Hp. destruct (stateOf s orderId =? STATE_FUNDED); eauto. }
  split; [exact Hab |]. destruct Hab as [msg Hab]. now apply (revert_step e c s s msg).
Qed.

Lemma outsider_calls_abort_witness :
  order_call (CancelOrder 1) = Some 1 /\ CancelOrder 1 <> AcceptOrder 1 /\
  sellerOf sample_funded 1 <> sender (mkEnv 33 103) /\
  buyerOf sample_funded 1 <> sender (mkEnv 33 103) /\
  ((exists msg, dispatch (CancelOrder 1) (mkEnv 33 103) sample_funded
                = Revert msg sample_funded) /\
   step (mkEnv 33 103) (CancelOrder 1) sample_funded = sample_funded).
Proof.
  assert (H1 : CancelOrder 1 <> AcceptOrder 1) by discriminate.
  assert (H2 : sellerOf sample_funded 1 <> sender (mkEnv 33 103))
    by (vm_compute; discriminate).
  assert (H3 : buyerOf sample_funded 1 <> sender (mkEnv 33 103))
    by (vm_compute; discriminate).
  split; [reflexivity |]. split; [exact H1 |]. split; [exact H2 |]. split; [exact H3 |].
  exact (outsider_calls_abort sample_funded (mkEnv 33 103) (CancelOrder 1) 1 eq_refl H1 H2 H3).
Defined.

(** A call writes to one order only: the five stored words of every other
    order are left as they were, and so are its seller and buyer as long as
    both identifiers are in the supported range. *)
Theorem calls_leave_other_orders_alone (s : Store) (e : Env) (c : Call) (orderId : Z) :
  wf_env e -> wf_call c -> is_u64 orderId -> orderId <> target_order s c ->
  orderWords (step e c s) orderId = orderWords s orderId /\
  (supported orderId -> supported (target_order s c) ->
   sellerOf (step e c s) orderId = sellerOf s orderId /\
   buyerOf (step e c s) orderId = buyerOf s orderId).
Proof.
  intros He Hc Hid Hne.
  pose proof (step_transition e c s He Hc) as Ht. revert Ht.
  generalize (step e c s) as s'. intros s' Ht.
  destruct Ht as [c | price dl Hp Hd Hcnt Hdl | id' Hst Hh | id' Hst Hb
                 | id' Hst Hb | id' Hst Hb | id' Hst Hb]; cbn in Hc, Hne;
    try (split; [reflexivity | intros _ _; split; reflexivity]).
  - pose proof (next_id_u64 s Hcnt) as Hnew. revert Hnew Hne.
    cbn [target_order]. generalize (orderCount s + 1) as newId. intros newId Hnew Hne.
    split.
    + unfold orderWords. store_simpl. reflexivity.
    + unfold supported. intros H1 H2.
      assert (Hsb : sellerPtr newId <> buyerPtr orderId)
        by (rewrite sellerPtr_small, buyerPtr_small by lia; lia).
      assert (Hss : sellerPtr newId <> sellerPtr orderId)
        by (rewrite !sellerPtr_small by lia; lia).
      split; store_simpl; reflexivity.
  - split.
    + unfold orderWords. store_simpl. reflexivity.
    + unfold supported. cbn [target_order]. intros H1 H2.
      assert (Hbs : buyerPtr id' <> sellerPtr orderId)
        by (rewrite sellerPtr_small, buyerPtr_small by lia; lia).
      assert (Hbb : buyerPtr id' <> buyerPtr orderId)
        by (rewrite !buyerPtr_small by lia; lia).
      split; store_simpl; reflexivity.
  - split; [unfold orderWords; store_simpl; reflexivity |].
    intros _ _. split; store_simpl; reflexivity.
  - split; [unfold orderWords; store_simpl; reflexivity |].
    intros _ _. split; store_simpl; reflexivity.
  - split; [unfold orderWords; store_simpl; reflexivity |].
    intros _ _. split; store_simpl; reflexivity.
  - split; [unfold orderWords; store_simpl; reflexivity |].
    intros _ _. split; store_simpl; reflexivity.
Qed.

Lemma calls_leave_other_orders_alone_witness :
  wf_env (mkEnv bob 104) /\ wf_call (CancelOrder 3) /\ is_u64 2 /\
  2 <> target_order sample_stats (CancelOrder 3) /\
  (orderWords (step (mkEnv bob 104) (CancelOrder 3) sample_stats) 2
   = orderWords sample_stats 2 /\
   (supported 2 -> supported (target_order sample_stats (CancelOrder 3)) ->
    sellerOf (step (mkEnv bob 104) (CancelOrder 3) sample_stats) 2 = sellerOf sample_stats 2 /\
    buyerOf (step (mkEnv bob 104) (CancelOrder 3) sample_stats) 2 = buyerOf sample_stats 2)).
Proof.
  assert (He : wf_env (mkEnv bob 104)) by in_range.
  assert (Hc : wf_call (CancelOrder 3)) by in_range.
  assert (Hi : is_u64 2) by in_range.
  assert (Hn : 2 <> target_order sample_stats (CancelOrder 3)) by (cbn; lia).
  split; [exact He |]. split; [exact Hc |]. split; [exact Hi |]. split; [exact Hn |].
  exact (calls_leave_other_orders_alone sample_stats (mkEnv bob 104) (CancelOrder 3) 2
           He Hc Hi Hn).
Defined.

(** * What every reachable store satisfies *)

Lemma small_word (st : Z) : 0 <= st <= 6 -> toU64 st = st.
Proof. intros H. apply toU64_small. unfold is_u64, U64_MAX. lia. Qed.

Lemma state_range_inv_transition (e : Env) (c : Call) (s s' : Store) :
  transition e s c s' -> wf_call c -> state_range_inv s -> state_range_inv s'.
Proof.
  intros Ht Hc IH id Hid. specialize (IH id Hid).
  destruct Ht as [c | price dl Hp Hd Hcnt Hdl | id' Hst Hh | id' Hst Hb
                 | id' Hst Hb | id' Hst Hb | id' Hst Hb]; cbn in Hc;
    [ exact IH
    | pose proof (next_id_u64 s Hcnt) as Hnew; revert IH Hnew;
      generalize (orderCount s + 1) as id'; intros id' IH Hnew
    | .. ];
    (destruct (Z.eq_dec id id') as [-> | Hne];
     [ store_simpl; split; [vm_compute; split; discriminate | reflexivity]
     | store_simpl; exact IH ]).
Qed.

Lemma in_time_inv_transition (e : Env) (c : Call) (s s' : Store) :
  transition e s c s' -> wf_env e -> wf_call c -> in_time_inv s -> in_time_inv s'.
Proof.
  intros Ht [_ Hn] Hc IH id Hid. specialize (IH id Hid). unfold in_time_inv in *.
  destruct Ht as [c | price dl Hp Hd Hcnt Hdl | id' Hst Hh | id' Hst Hb
                 | id' Hst Hb | id' Hst Hb | id' Hst Hb]; cbn in Hc.
  - exact IH.
  - pose proof (next_id_u64 s Hcnt) as Hnew. revert IH Hnew.
    generalize (orderCount s + 1) as newId. intros newId IH Hnew.
    destruct (Z.eq_dec id newId) as [-> | Hne]; store_simpl; [| exact IH].
    change (toU64 0) with 0.
    assert (Hsum : toU64 (number e + dl) = number e + dl)
      by (apply toU64_small; unfold is_u64 in *; lia).
    rewrite Hsum. unfold is_u64 in Hn. split; [lia | intros _; lia].
  - destruct (Z.eq_dec id id') as [-> | Hne]; store_simpl; [| exact IH].
    rewrite (toU64_small (number e) Hn). split; [exact Hh |].
    intros _. apply IH. rewrite Hst. discriminate.
  - destruct (Z.eq_dec id id') as [-> | Hne]; store_simpl; [| exact IH].
    split; [apply IH | intros _; apply IH; rewrite Hst; discriminate].
  - destruct (Z.eq_dec id id') as [-> | Hne]; store_simpl; [| exact IH].
    split; [apply IH | intros _; apply IH; rewrite Hst; discriminate].
  - destruct (Z.eq_dec id id') as [-> | Hne]; store_simpl; [| exact IH].
    split; [apply IH | intros _; apply IH; now apply cancellable_nonzero].
  - destruct (Z.eq_dec id id') as [-> | Hne]; store_simpl; [| exact IH].
    split; [apply IH | intros _; apply IH; rewrite Hst; discriminate].
Qed.

Lemma funded_inv_transition (e : Env) (c : Call) (s s' : Store) :
  transition e s c s' -> wf_call c -> funded_inv s -> funded_inv s'.
Proof.
  intros Ht Hc IH id Hid. specialize (IH id Hid).
  destruct Ht as [c | price dl Hp Hd Hcnt Hdl | id' Hst Hh | id' Hst Hb
                 | id' Hst Hb | id' Hst Hb | id' Hst Hb]; cbn in Hc.
  - exact IH.
  - pose proof (next_id_u64 s Hcnt) as Hnew. revert IH Hnew.
    generalize (orderCount s + 1) as newId. intros newId IH Hnew.
    destruct (Z.eq_dec id newId) as [-> | Hne]; store_simpl; [| exact IH].
    split; [intros [H | H]; discriminate H | intros _; exact Hp].
  - destruct (Z.eq_dec id id') as [-> | Hne]; store_simpl; [| exact IH].
    split; [intros [H | H]; discriminate H |].
    intros _. apply IH. rewrite Hst. discriminate.
  - destruct (Z.eq_dec id id') as [-> | Hne]; store_simpl; [| exact IH].
    split; [reflexivity |]. intros _. apply IH. rewrite Hst. discriminate.
  - destruct (Z.eq_dec id id') as [-> | Hne]; store_simpl; [| exact IH].
    split; [intros [H | H]; discriminate H |].
    intros _. apply IH. rewrite Hst. discriminate.
  - destruct (Z.eq_dec id id') as [-> | Hne]; store_simpl; [| exact IH].
    split; [intros [H | H]; discriminate H |].
    intros _. apply IH. now apply cancellable_nonzero.
  - destruct (Z.eq_dec id id') as [-> | Hne]; store_simpl; [| exact IH].
    split; [| intros _; apply IH; rewrite Hst; discriminate].
    intros _. apply IH. left. exact Hst.
Qed.

Lemma zero_words_deployed (p : Z) (id : Z) :
  p <> PTR_ORDER_COUNT -> toU64 (StoredU256_get p (subPtr id) deployed) = 0.
Proof. intros Hp. rewrite field_deployed by assumption. reflexivity. Qed.

Lemma more_invs_reachable (P : Env -> Prop) (s : Store) :
  reachable_from P deployed s ->
  state_range_inv s /\ in_time_inv s /\ funded_inv s /\ exists_inv s.
Proof.
  induction 1 as [| s e c Hr (IH1 & IH2 & IH3 & IH4) HP He Hc].
  - split; [| split; [| split]].
    + intros id _. unfold stateOf. rewrite field_deployed by ptr_ne.
      split; [vm_compute; split; discriminate | reflexivity].
    + intros id _. unfold acceptedAtOf, deadlineOf, stateOf.
      rewrite !field_deployed by ptr_ne.
      split; [reflexivity | intros H; exfalso; apply H; reflexivity].
    + intros id _. unfold stateOf, lockedOf, priceOf.
      rewrite !field_deployed by ptr_ne.
      split; [reflexivity | intros H; exfalso; apply H; reflexivity].
    + apply exists_inv_deployed.
  - pose proof (step_transition e c s He Hc) as Ht.
    split; [now apply (state_range_inv_transition e c s) |].
    split; [now apply (in_time_inv_transition e c s) |].
    split; [now apply (funded_inv_transition e c s) |].
    now apply (exists_inv_transition e c s).
Qed.

(** The state word of an order is always one of 0..6, it is nonzero exactly
    for the identifiers from 1 to the counter, and the byte [getOrder]
    reports is the stored state, uncut. *)
Theorem state_word_in_range (s : Store) (orderId : Z) :
  reachable s -> is_u64 orderId ->
  0 <= stateOf s orderId <= 6 /\
  (stateOf s orderId <> 0 <-> 1 <= orderId <= orderCount s) /\
  v_state (orderView s orderId) = StoredU256_get PTR_STATE (subPtr orderId) s.
Proof.
  intros Hr Hid.
  destruct (more_invs_reachable _ s Hr) as (Hrange & _ & _ & Hex).
  pose proof (fresh_inv_reachable _ s Hr) as Hfresh.
  destruct (Hrange orderId Hid) as [Hr6 Hword].
  split; [exact Hr6 |]. split.
  - split.
    + intros Hnz. unfold is_u64 in Hid.
      destruct (Z_le_gt_dec orderId 0) as [H0 | H0];
        [exfalso; apply Hnz, Hfresh; [exact Hid | lia] |].
      destruct (Z_le_gt_dec orderId (orderCount s)) as [H1 | H1]; [lia |].
      exfalso. apply Hnz, Hfresh; [exact Hid | lia].
    + apply Hex.
  - cbn [orderView v_state]. rewrite Hword. unfold u8. apply Z.mod_small. lia.
Qed.

Lemma state_word_in_range_witness :
  reachable sample_funded /\ is_u64 1 /\
  (0 <= stateOf sample_funded 1 <= 6 /\
   (stateOf sample_funded 1 <> 0 <-> 1 <= 1 <= orderCount sample_funded) /\
   v_state (orderView sample_funded 1)
   = StoredU256_get PTR_STATE (subPtr 1) sample_funded).
Proof.
  assert (Hi : is_u64 1) by in_range.
  split; [apply sample_funded_reachable |]. split; [exact Hi |].
  exact (state_word_in_range sample_funded 1 sample_funded_reachable Hi).
Defined.

(** No order is recorded as accepted after its deadline: in every reachable
    store acceptedAt is at most the deadline, and the deadline of an
    existing order is at least 6. *)
Theorem accepted_within_deadline (s : Store) (orderId : Z) :
  reachable s -> is_u64 orderId ->
  acceptedAtOf s orderId <= deadlineOf s orderId /\
  (1 <= orderId <= orderCount s -> 6 <= deadlineOf s orderId).
Proof.
  intros Hr Hid.
  destruct (more_invs_reachable _ s Hr) as (_ & Htime & _ & Hex).
  destruct (Htime orderId Hid) as [H1 H2].
  split; [exact H1 |]. intros Hin. apply H2. now apply Hex.
Qed.

Lemma accepted_within_deadline_witness :
  reachable sample_funded /\ is_u64 1 /\
  (acceptedAtOf sample_funded 1 <= deadlineOf sample_funded 1 /\
   (1 <= 1 <= orderCount sample_funded -> 6 <= deadlineOf sample_funded 1)).
Proof.
  assert (Hi : is_u64 1) by in_range.
  split; [apply sample_funded_reachable |]. split; [exact Hi |].
  exact (accepted_within_deadline sample_funded 1 sample_funded_reachable Hi).
Defined.

(** The locked amount is determined by the state: it is the price, which is
    positive, while the order is Funded or Disputed, and zero in every
    other state. *)
Theorem locked_is_price_exactly_when_funded (s : Store) (orderId : Z) :
  reachable s -> is_u64 orderId ->
  (stateOf s orderId = STATE_FUNDED \/ stateOf s orderId = STATE_DISPUTED ->
   lockedOf s orderId = priceOf s orderId /\ 0 < lockedOf s orderId) /\
  (stateOf s orderId <> STATE_FUNDED -> stateOf s orderId <> STATE_DISPUTED ->
   lockedOf s orderId = 0) /\
  (1 <= orderId <= orderCount s -> 0 < priceOf s orderId <= U256_MAX).
Proof.
  intros Hr Hid.
  destruct (more_invs_reachable _ s Hr) as (_ & _ & Hf & Hex).
  destruct (Hf orderId Hid) as [Hlp Hpos].
  pose proof (locked_inv_reachable _ s Hr orderId Hid) as Hl.
  pose proof (values_inv_reachable _ s Hr orderId Hid) as [_ Hp256].
  split; [| split].
  - intros Hst. rewrite (Hlp Hst). split; [reflexivity |].
    apply Hpos. destruct Hst as [-> | ->]; discriminate.
  - intros H3 H6.
    destruct (Z.eq_dec (lockedOf s orderId) 0) as [H0 | Hnz]; [exact H0 |].
    destruct (Hl Hnz) as [[H | H] _]; contradiction.
  - intros Hex'. split; [apply Hpos; now apply Hex | apply Hp256].
Qed.

Lemma locked_is_price_exactly_when_funded_witness :
  reachable sample_funded /\ is_u64 1 /\
  ((stateOf sample_funded 1 = STATE_FUNDED \/ stateOf sample_funded 1 = STATE_DISPUTED ->
    lockedOf sample_funded 1 = priceOf sample_funded 1 /\ 0 < lockedOf sample_funded 1) /\
   (stateOf sample_funded 1 <> STATE_FUNDED -> stateOf sample_funded 1 <> STATE_DISPUTED ->
    lockedOf sample_funded 1 = 0) /\
   (1 <= 1 <= orderCount sample_funded -> 0 < priceOf sample_funded 1 <= U256_MAX)).
Proof.
  assert (Hi : is_u64 1) by in_range.
  split; [apply sample_funded_reachable |]. split; [exact Hi |].
  exact (locked_is_price_exactly_when_funded sample_funded 1 sample_funded_reachable Hi).
Defined.

(** * How the state of an order moves *)

(** One call moves the state word of an order along one edge of the
    lifecycle, or leaves it: 0 to Created by createOrder, Created to
    Accepted, Accepted to Funded, Funded to Completed or Disputed, and
    Created, Accepted, Funded or Disputed to Cancelled.  Nothing leaves
    Completed or Cancelled and nothing goes back. *)
Theorem state_moves_along_edges (s : Store) (e : Env) (c : Call) (orderId : Z) :
  reachable s -> wf_env e -> wf_call c -> is_u64 orderId ->
  stateOf (step e c s) orderId = stateOf s orderId \/
  state_edge (stateOf s orderId) (stateOf (step e c s) orderId) = true.
Proof.
  intros Hr He Hc Hid.
  pose proof (fresh_inv_reachable _ s Hr) as Hfresh.
  pose proof (step_transition e c s He Hc) as Ht. revert Ht.
  generalize (step e c s) as s'. intros s' Ht.
  destruct Ht as [c | price dl Hp Hd Hcnt Hdl | id' Hst Hh | id' Hst Hb
                 | id' Hst Hb | id' Hst Hb | id' Hst Hb]; cbn in Hc.
  - left; reflexivity.
  - pose proof (next_id_u64 s Hcnt) as Hnew.
    assert (H0 : stateOf s (orderCount s + 1) = 0) by (apply Hfresh; [exact Hnew | lia]).
    revert Hnew H0. generalize (orderCount s + 1) as newId. intros newId Hnew H0.
    destruct (Z.eq_dec orderId newId) as [-> | Hne].
    + right. rewrite H0. store_simpl. reflexivity.
    + left. store_simpl. reflexivity.
  - destruct (Z.eq_dec orderId id') as [-> | Hne]; [right | left; store_simpl; reflexivity].
    rewrite Hst. store_simpl. reflexivity.
  - destruct (Z.eq_dec orderId id') as [-> | Hne]; [right | left; store_simpl; reflexivity].
    rewrite Hst. store_simpl. reflexivity.
  - destruct (Z.eq_dec orderId id') as [-> | Hne]; [right | left; store_simpl; reflexivity].
    rewrite Hst. store_simpl. reflexivity.
  - destruct (Z.eq_dec orderId id') as [-> | Hne]; [right | left; store_simpl; reflexivity].
    unfold state_edge. rewrite Hst. apply orb_true_iff. right.
    store_simpl. reflexivity.
  - destruct (Z.eq_dec orderId id') as [-> | Hne]; [right | left; store_simpl; reflexivity].
    rewrite Hst. store_simpl. reflexivity.
Qed.

Lemma state_moves_along_edges_witness :
  reachable sample_funded /\ wf_env (mkEnv alice 103) /\ wf_call (OpenDispute 1) /\
  is_u64 1 /\
  (stateOf (step (mkEnv alice 103) (OpenDispute 1) sample_funded) 1 = stateOf sample_funded 1 \/
   state_edge (stateOf sample_funded 1)
     (stateOf (step (mkEnv alice 103) (OpenDispute 1) sample_funded) 1) = true).
Proof.
  assert (He : wf_env (mkEnv alice 103)) by in_range.
  assert (Hc : wf_call (OpenDispute 1)) by in_range.
  assert (Hi : is_u64 1) by in_range.
  split; [apply sample_funded_reachable |]. split; [exact He |]. split; [exact Hc |].
  split; [exact Hi |].
  exact (state_moves_along_edges sample_funded (mkEnv alice 103) (OpenDispute 1) 1
           sample_funded_reachable He Hc Hi).
Defined.

(** * Fields that are written once *)

Lemma reachable_from_trans (P : Env -> Prop) (s0 s s' : Store) :
  reachable_from P s0 s -> reachable_from P s s' -> reachable_from P s0 s'.
Proof.
  intros H0 H. induction H as [| s1 e c Hr IH HP He Hc]; [exact H0 |].
  now apply reach_step.
Qed.

Lemma existing_order_supported (s : Store) (id : Z) :
  fresh_inv s -> is_u64 id -> stateOf s id <> 0 -> 1 <= id <= orderCount s.
Proof.
  intros Hf Hid Hnz. unfold is_u64 in Hid.
  destruct (Z_le_gt_dec id 0) as [H0 | H0];
    [exfalso; apply Hnz, Hf; [exact Hid | lia] |].
  destruct (Z_le_gt_dec id (orderCount s)) as [H1 | H1]; [lia |].
  exfalso. apply Hnz, Hf; [exact Hid | lia].
Qed.

Lemma transition_keeps_created_fields (e : Env) (c : Call) (s s' : Store) (id : Z) :
  transition e s c s' -> wf_call c -> fresh_inv s -> 1 <= id <= orderCount s ->
  priceOf s' id = priceOf s id /\
  deadlineOf s' id = deadlineOf s id /\
  (stateOf s id <> STATE_CREATED -> stateOf s' id <> STATE_CREATED) /\
  (orderCount s' <= 9899 ->
   sellerOf s' id = sellerOf s id /\
   (stateOf s id <> STATE_CREATED -> buyerOf s' id = buyerOf s id)).
Proof.
  intros Ht Hc Hfresh Hid.
  pose proof (orderCount_range s) as Hrange.
  assert (Hu : is_u64 id) by (unfold is_u64 in *; lia).
  destruct Ht as [c | price dl Hp Hd Hcnt Hdl | id' Hst Hh | id' Hst Hb
                 | id' Hst Hb | id' Hst Hb | id' Hst Hb]; cbn in Hc.
  - repeat split; auto.
  - pose proof (next_id_u64 s Hcnt) as Hnew.
    rewrite orderCount_create by assumption.
    assert (Hne : id <> orderCount s + 1) by lia.
    assert (Hptr : orderCount s + 1 <= 9899 ->
                   sellerPtr (orderCount s + 1) <> sellerPtr id /\
                   sellerPtr (orderCount s + 1) <> buyerPtr id).
    { intros Hmax. rewrite !sellerPtr_small, buyerPtr_small by lia. lia. }
    revert Hnew Hne Hptr. generalize (orderCount s + 1) as newId.
    intros newId Hnew Hne Hptr.
    split; [store_simpl; reflexivity |]. split; [store_simpl; reflexivity |].
    split; [store_simpl; auto |].
    intros Hmax. destruct (Hptr Hmax) as [Hss Hsb].
    split; [store_simpl; reflexivity | intros _; store_simpl; reflexivity].
  - assert (Hex : 1 <= id' <= orderCount s)
      by (apply existing_order_supported; [assumption | assumption | rewrite Hst; discriminate]).
    rewrite orderCount_accept.
    assert (Hptr : orderCount s <= 9899 -> buyerPtr id' <> sellerPtr id)
      by (intros Hmax; rewrite sellerPtr_small, buyerPtr_small by lia; lia).
    destruct (Z.eq_dec id id') as [-> | Hne].
    + split; [store_simpl; reflexivity |]. split; [store_simpl; reflexivity |].
      split; [intros H; contradiction |].
      intros Hmax. specialize (Hptr Hmax).
      split; [store_simpl; reflexivity | intros H; contradiction].
    + assert (Hbb : orderCount s <= 9899 -> buyerPtr id' <> buyerPtr id)
        by (intros Hmax; rewrite !buyerPtr_small by lia; lia).
      split; [store_simpl; reflexivity |]. split; [store_simpl; reflexivity |].
      split; [store_simpl; auto |].
      intros Hmax. specialize (Hptr Hmax). specialize (Hbb Hmax).
      split; [store_simpl; reflexivity | intros _; store_simpl; reflexivity].
  - rewrite orderCount_fund.
    destruct (Z.eq_dec id id') as [-> | Hne];
      (split; [store_simpl; reflexivity |]; split; [store_simpl; reflexivity |];
       split; [store_simpl; first [discriminate | auto] |];
       intros _; split; [store_simpl; reflexivity | intros _; store_simpl; reflexivity]).
  - rewrite orderCount_release.
    destruct (Z.eq_dec id id') as [-> | Hne];
      (split; [store_simpl; reflexivity |]; split; [store_simpl; reflexivity |];
       split; [store_simpl; first [discriminate | auto] |];
       intros _; split; [store_simpl; reflexivity | intros _; store_simpl; reflexivity]).
  - rewrite orderCount_release.
    destruct (Z.eq_dec id id') as [-> | Hne];
      (split; [store_simpl; reflexivity |]; split; [store_simpl; reflexivity |];
       split; [store_simpl; first [discriminate | auto] |];
       intros _; split; [store_simpl; reflexivity | intros _; store_simpl; reflexivity]).
  - rewrite orderCount_dispute.
    destruct (Z.eq_dec id id') as [-> | Hne];
      (split; [store_simpl; reflexivity |]; split; [store_simpl; reflexivity |];
       split; [store_simpl; first [discriminate | auto] |];
       intros _; split; [store_simpl; reflexivity | intros _; store_simpl; reflexivity]).
Qed.

(** The price and the deadline of an existing order never change again,
    whatever calls follow.  While at most 9899 orders exist the seller never
    changes either, and nor does the buyer once the order has left
    Created. *)
Theorem created_fields_never_change (s s' : Store) (orderId : Z) :
  reachable s -> 1 <= orderId <= orderCount s ->
  reachable_from (fun _ => True) s s' ->
  priceOf s' orderId = priceOf s orderId /\
  deadlineOf s' orderId = deadlineOf s orderId /\
  (orderCount s' <= 9899 ->
   sellerOf s' orderId = sellerOf s orderId /\
   (stateOf s orderId <> STATE_CREATED -> buyerOf s' orderId = buyerOf s orderId)).
Proof.
  intros Hr Hid Hr'.
  assert (Hall : orderId <= orderCount s' /\
                 priceOf s' orderId = priceOf s orderId /\
                 deadlineOf s' orderId = deadlineOf s orderId /\
                 (stateOf s orderId <> STATE_CREATED -> stateOf s' orderId <> STATE_CREATED) /\
                 (orderCount s' <= 9899 ->
                  sellerOf s' orderId = sellerOf s orderId /\
                  (stateOf s orderId <> STATE_CREATED ->
                   buyerOf s' orderId = buyerOf s orderId))).
  { induction Hr' as [| s1 e c Hr1 IH HP He Hc].
    - split; [lia |]. repeat split; auto.
    - destruct IH as (Hle & Hp & Hd & Hst & Haddr).
      pose proof (step_transition e c s1 He Hc) as Ht.
      pose proof (transition_count_le e c s1 _ Ht) as Hcnt.
      pose proof (fresh_inv_reachable _ s1 (reachable_from_trans _ _ _ _ Hr Hr1)) as Hf.
      destruct (transition_keeps_created_fields e c s1 _ orderId Ht Hc Hf ltac:(lia))
        as (Hp' & Hd' & Hst' & Haddr').
      split; [lia |]. split; [congruence |]. split; [congruence |].
      split; [auto |].
      intros Hmax. destruct (Haddr ltac:(lia)) as [Hs Hb].
      destruct (Haddr' Hmax) as [Hs' Hb'].
      split; [congruence |]. intros Hnc. rewrite (Hb' (Hst Hnc)). now apply Hb. }
  destruct Hall as (_ & Hp & Hd & _ & Haddr). auto.
Qed.

Lemma created_fields_never_change_witness :
  reachable sample_accepted /\ 1 <= 1 <= orderCount sample_accepted /\
  reachable_from (fun _ => True) sample_accepted sample_funded /\
  (priceOf sample_funded 1 = priceOf sample_accepted 1 /\
   deadlineOf sample_funded 1 = deadlineOf sample_accepted 1 /\
   (orderCount sample_funded <= 9899 ->
    sellerOf sample_funded 1 = sellerOf sample_accepted 1 /\
    (stateOf sample_accepted 1 <> STATE_CREATED ->
     buyerOf sample_funded 1 = buyerOf sample_accepted 1))).
Proof.
  assert (Hid : 1 <= 1 <= orderCount sample_accepted)
    by (split; apply Z.leb_le; vm_compute; reflexivity).
  assert (Hr : reachable_from (fun _ => True) sample_accepted sample_funded)
    by (apply reach_step; [apply reach_refl | exact I | in_range | in_range]).
  split; [apply sample_accepted_reachable |]. split; [exact Hid |]. split; [exact Hr |].
  exact (created_fields_never_change sample_accepted sample_funded 1
           sample_accepted_reachable Hid Hr).
Defined.

(** * Reading an order that does not exist *)

Lemma blank_inv_transition (e : Env) (c : Call) (s s' : Store) :
  transition e s c s' -> wf_call c -> fresh_inv s -> blank_inv s -> blank_inv s'.
Proof.
  intros Ht Hc Hfresh IH id Hid Hout.
  pose proof (transition_count_le e c s s' Ht) as Hle.
  assert (Hout' : id = 0 \/ orderCount s < id) by lia.
  pose proof (Hfresh id Hid Hout') as H0.
  rewrite <- (IH id Hid Hout').
  destruct Ht as [c | price dl Hp Hd Hcnt Hdl | id' Hst Hh | id' Hst Hb
                 | id' Hst Hb | id' Hst Hb | id' Hst Hb]; cbn in Hc;
    try reflexivity;
    try (assert (Hne : id <> id') by (intros ->; rewrite H0 in Hst; discriminate Hst);
         unfold orderWords; store_simpl; reflexivity).
  - pose proof (next_id_u64 s Hcnt) as Hnew.
    rewrite orderCount_create in Hout by assumption.
    pose proof (orderCount_range s) as Hr. unfold is_u64 in Hr.
    assert (Hne : id <> orderCount s + 1) by lia.
    revert Hnew Hne. generalize (orderCount s + 1) as newId. intros newId Hnew Hne.
    unfold orderWords. store_simpl. reflexivity.
Qed.

Lemma addr_blank_inv_transition (e : Env) (c : Call) (s s' : Store) :
  transition e s c s' -> wf_call c -> fresh_inv s -> addr_blank_inv s -> addr_blank_inv s'.
Proof.
  intros Ht Hc Hfresh IH Hmax id Hid Hout.
  pose proof (transition_count_le e c s s' Ht) as Hle.
  pose proof (orderCount_range s) as Hr. unfold is_u64 in Hr.
  assert (Hout' : id = 0 \/ orderCount s < id) by lia.
  specialize (IH ltac:(lia) id Hid Hout').
  destruct Ht as [c | price dl Hp Hd Hcnt Hdl | id' Hst Hh | id' Hst Hb
                 | id' Hst Hb | id' Hst Hb | id' Hst Hb]; cbn in Hc;
    try exact IH;
    try (split; store_simpl; apply IH).
  - pose proof (next_id_u64 s Hcnt) as Hnew.
    rewrite orderCount_create in Hout, Hmax by assumption.
    assert (Hss : sellerPtr (orderCount s + 1) <> sellerPtr id)
      by (rewrite !sellerPtr_small by lia; lia).
    assert (Hsb : sellerPtr (orderCount s + 1) <> buyerPtr id)
      by (rewrite sellerPtr_small, buyerPtr_small by lia; lia).
    revert Hnew Hss Hsb. generalize (orderCount s + 1) as newId.
    intros newId Hnew Hss Hsb.
    split; store_simpl; apply IH.
  - rewrite orderCount_accept in Hout, Hmax.
    assert (Hex : 1 <= id' <= orderCount s)
      by (apply existing_order_supported; [assumption | assumption | rewrite Hst; discriminate]).
    assert (Hbs : buyerPtr id' <> sellerPtr id)
      by (rewrite sellerPtr_small, buyerPtr_small by lia; lia).
    assert (Hbb : buyerPtr id' <> buyerPtr id)
      by (rewrite !buyerPtr_small by lia; lia).
    split; store_simpl; apply IH.
Qed.

Lemma blank_invs_reachable (P : Env -> Prop) (s : Store) :
  reachable_from P deployed s -> blank_inv s /\ addr_blank_inv s.
Proof.
  induction 1 as [| s e c Hr (IHb & IHa) HP He Hc].
  - split.
    + intros id _ _. unfold orderWords. rewrite !field_deployed by ptr_ne. reflexivity.
    + intros _ id _ _. unfold sellerOf, buyerOf. rewrite !address_deployed. now split.
  - pose proof (step_transition e c s He Hc) as Ht.
    pose proof (fresh_inv_reachable _ s Hr) as Hf.
    split; [now apply (blank_inv_transition e c s) | now apply (addr_blank_inv_transition e c s)].
Qed.

(** getOrder does not check that the order exists.  For an identifier that
    is zero or above the counter it returns, without aborting and without
    writing, a record whose price, locked, state, deadline and acceptedAt
    are zero; seller and buyer are the zero address too as long as the
    counter and the identifier are at most 9899. *)
Theorem getOrder_of_missing_order (s : Store) (e : Env) (orderId : Z) :
  reachable s -> is_u64 orderId -> orderId = 0 \/ orderCount s < orderId ->
  exists v, getOrder orderId e s = Ok v s /\
    v_orderId v = orderId /\ v_price v = 0 /\ v_locked v = 0 /\ v_state v = 0 /\
    v_deadline v = 0 /\ v_acceptedAt v = 0 /\
    (orderCount s <= 9899 -> orderId <= 9899 ->
     v_seller v = Address_zero /\ v_buyer v = Address_zero).
Proof.
  intros Hr Hid Hout.
  destruct (blank_invs_reachable _ s Hr) as [Hb Ha].
  pose proof (Hb orderId Hid Hout) as Hw. unfold orderWords in Hw.
  injection Hw as Hp Hl Hs Hd Hacc.
  eexists. rewrite getOrder_eq. split; [reflexivity |].
  cbn [v_orderId v_price v_locked v_state v_deadline v_acceptedAt v_seller v_buyer].
  unfold priceOf, lockedOf, stateOf, deadlineOf, acceptedAtOf.
  rewrite Hp, Hl, Hs, Hd, Hacc.
  repeat split.
  - apply Ha; [assumption | unfold is_u64 in Hid; lia | assumption].
  - apply Ha; [assumption | unfold is_u64 in Hid; lia | assumption].
Qed.

Lemma getOrder_of_missing_order_witness :
  reachable sample_accepted /\ is_u64 2 /\
  (2 = 0 \/ orderCount sample_accepted < 2) /\
  exists v, getOrder 2 (mkEnv alice 200) sample_accepted = Ok v sample_accepted /\
    v_orderId v = 2 /\ v_price v = 0 /\ v_locked v = 0 /\ v_state v = 0 /\
    v_deadline v = 0 /\ v_acceptedAt v = 0 /\
    (orderCount sample_accepted <= 9899 -> 2 <= 9899 ->
     v_seller v = Address_zero /\ v_buyer v = Address_zero).
Proof.
  assert (Hi : is_u64 2) by in_range.
  assert (Ho : 2 = 0 \/ orderCount sample_accepted < 2) by (right; vm_compute; reflexivity).
  split; [apply sample_accepted_reachable |]. split; [exact Hi |]. split; [exact Ho |].
  exact (getOrder_of_missing_order sample_accepted (mkEnv alice 200) 2
           sample_accepted_reachable Hi Ho).
Defined.

(** Outside the supported range the record of a missing order is not
    blank: with one accepted order, getOrder 9901 shows that order's buyer
    as the seller of order 9901. *)
Example missing_order_with_a_seller :
  orderCount sample_accepted = 1 /\
  execute (getOrder 9901) (mkEnv alice 200) sample_accepted =
  (Some (mkOrderView 9901 bob Address_zero 0 0 0 0 0), sample_accepted).
Proof. split; vm_compute; reflexivity. Qed.

(** * The address pointers and the sub-pointer *)

Lemma u16_wrap64 (x : Z) : u16 (wrap64 x) = x mod 65536.
Proof.
  unfold u16, wrap64. change (2 ^ 16) with 65536.
  apply Z.mod_mod_divide. exists (2 ^ 48). reflexivity.
Qed.

(** The pointer of an address slot is the base plus the identifier cut to
    16 bits.  An order's seller slot and buyer slot never coincide, but the
    seller slot of order [a + 9900] is the buyer slot of order [a], and both
    pointers repeat every 65536 identifiers. *)
Theorem address_pointers_wrap (a : Z) :
  sellerPtr a = (100 + a) mod 65536 /\
  buyerPtr a = (10000 + a) mod 65536 /\
  sellerPtr a <> buyerPtr a /\
  sellerPtr (a + 9900) = buyerPtr a /\
  sellerPtr (a + 65536) = sellerPtr a /\
  buyerPtr (a + 65536) = buyerPtr a.
Proof.
  unfold sellerPtr, buyerPtr, PTR_SELLER_BASE, PTR_BUYER_BASE.
  rewrite !u16_wrap64.
  repeat split.
  - Z.div_mod_to_equations. lia.
  - f_equal. lia.
  - replace (100 + (a + 65536)) with (100 + a + 1 * 65536) by lia.
    now rewrite Z.mod_add by lia.
  - replace (10000 + (a + 65536)) with (10000 + a + 1 * 65536) by lia.
    now rewrite Z.mod_add by lia.
Qed.

(** [subPtr] is a faithful 32-byte encoding of a 64-bit identifier: reading
    the buffer back big-endian gives the identifier, two identifiers with
    the same buffer are equal, every byte is in 0..255 and the first 24 are
    zero. *)
Theorem subPtr_round_trip (a b : Z) :
  is_u64 a -> is_u64 b ->
  readBE (subPtr a) = a /\
  (subPtr a = subPtr b -> a = b) /\
  length (subPtr a) = 32%nat /\
  firstn 24 (subPtr a) = repeat 0 24 /\
  Forall (fun x => 0 <= x <= 255) (subPtr a).
Proof.
  intros Ha Hb.
  split; [now apply readBE_subPtr |].
  split; [now apply subPtr_inj |].
  split; [reflexivity |]. split; [reflexivity |].
  unfold subPtr, u8. cbn [repeat app].
  repeat (apply List.Forall_cons;
          [ first [ lia
                  | match goal with
                    | |- 0 <= ?x mod ?m <= 255 =>
                        pose proof (Z.mod_pos_bound x m ltac:(lia)); lia
                    end ] |]).
  apply List.Forall_nil.
Qed.

Lemma subPtr_round_trip_witness :
  is_u64 U64_MAX /\ is_u64 258 /\
  (readBE (subPtr U64_MAX) = U64_MAX /\
   (subPtr U64_MAX = subPtr 258 -> U64_MAX = 258) /\
   length (subPtr U64_MAX) = 32%nat /\
   firstn 24 (subPtr U64_MAX) = repeat 0 24 /\
   Forall (fun x => 0 <= x <= 255) (subPtr U64_MAX)).
Proof.
  assert (Ha : is_u64 U64_MAX) by in_range.
  assert (Hb : is_u64 258) by in_range.
  split; [exact Ha |]. split; [exact Hb |].
  exact (subPtr_round_trip U64_MAX 258 Ha Hb).
Defined.

Example subPtr_bytes :
  subPtr 258 = repeat 0 24 ++ [0; 0; 0; 0; 0; 0; 1; 2] /\
  subPtr 0 = emptySubPtr.
Proof. split; reflexivity. Qed.

(** * How calls move the total of getEscrowStats *)

Lemma sumZ_app (l1 l2 : list Z) : sumZ (l1 ++ l2) = sumZ l1 + sumZ l2.
Proof.
  induction l1 as [| x l1 IH]; cbn [app sumZ fold_right]; [reflexivity |].
  fold (sumZ (l1 ++ l2)). fold (sumZ l1). rewrite IH. lia.
Qed.

Lemma locked_values_app (s : Store) (from n1 n2 : Z) :
  0 <= n1 -> 0 <= n2 ->
  locked_values s from (n1 + n2) =
  locked_values s from n1 ++ locked_values s (from + n1) n2.
Proof.
  intros H1 H2. unfold locked_values.
  rewrite seqZ_app by assumption.
  now rewrite List.filter_app, List.map_app.
Qed.

Lemma locked_values_one (s : Store) (id : Z) :
  sumZ (locked_values s id 1) = contribution s id.
Proof.
  rewrite locked_values_cons by lia. rewrite locked_values_nil by lia.
  unfold contribution. destruct (counts_as_locked s id); cbn; lia.
Qed.

Lemma locked_values_ext (s s' : Store) (len : Z) :
  forall from,
  (forall i, from <= i < from + len ->
     stateOf s' i = stateOf s i /\ lockedOf s' i = lockedOf s i) ->
  locked_values s' from len = locked_values s from len.
Proof.
  destruct (Z_le_gt_dec len 0) as [Hle | Hgt].
  { intros from _. now rewrite !locked_values_nil by assumption. }
  rewrite <- (Z2Nat.id len) by lia.
  induction (Z.to_nat len) as [| n IH]; intros from Hsame.
  - now rewrite !locked_values_nil by lia.
  - rewrite !(locked_values_cons _ from) by lia.
    replace (Z.of_nat (S n) - 1) with (Z.of_nat n) by lia.
    rewrite (IH (from + 1)) by (intros i Hi; apply Hsame; lia).
    destruct (Hsame from ltac:(lia)) as [Hst Hl].
    unfold counts_as_locked. rewrite Hst, Hl. reflexivity.
Qed.

Lemma total_change_one (s s' : Store) (id : Z) :
  1 <= id <= orderCount s -> orderCount s' = orderCount s ->
  (forall i, is_u64 i -> i <> id ->
     stateOf s' i = stateOf s i /\ lockedOf s' i = lockedOf s i) ->
  totalLocked_spec s' = totalLocked_spec s + contribution s' id - contribution s id.
Proof.
  intros Hid Hcnt Hsame. unfold totalLocked_spec. rewrite Hcnt.
  pose proof (orderCount_range s) as Hr. unfold is_u64 in Hr.
  replace (orderCount s) with ((id - 1) + (1 + (orderCount s - id))) by lia.
  rewrite !(locked_values_app _ 1 (id - 1)) by lia.
  replace (1 + (id - 1)) with id by lia.
  rewrite !(locked_values_app _ id 1) by lia.
  rewrite !sumZ_app, !locked_values_one.
  rewrite (locked_values_ext s s' (id - 1) 1)
    by (intros i Hi; apply Hsame; [unfold is_u64; lia | lia]).
  rewrite (locked_values_ext s s' (orderCount s - id) (id + 1))
    by (intros i Hi; apply Hsame; [unfold is_u64; lia | lia]).
  lia.
Qed.

Lemma total_after_create (e : Env) (p dl : Z) (s : Store) :
  orderCount s + 1 <= U64_MAX ->
  totalLocked_spec (create_writes e p (orderCount s + 1) dl s) = totalLocked_spec s.
Proof.
  intros Hcnt. pose proof (next_id_u64 s Hcnt) as Hnew.
  pose proof (orderCount_range s) as Hr. unfold is_u64 in Hr.
  unfold totalLocked_spec. rewrite orderCount_create by assumption.
  rewrite locked_values_app by lia. rewrite sumZ_app.
  replace (1 + orderCount s) with (orderCount s + 1) by lia.
  rewrite locked_values_one.
  assert (Hnewc : contribution (create_writes e p (orderCount s + 1) dl s) (orderCount s + 1) = 0).
  { unfold contribution, counts_as_locked.
    rewrite stateOf_create by assumption.
    destruct (decide (orderCount s + 1 = orderCount s + 1)); [reflexivity | contradiction]. }
  rewrite Hnewc.
  rewrite (locked_values_ext s _ (orderCount s) 1); [lia |].
  intros i Hi.
  assert (Hu : is_u64 i) by (unfold is_u64; lia).
  assert (Hne : i <> orderCount s + 1) by lia.
  revert Hnew Hne. generalize (orderCount s + 1) as newId. intros newId Hnew Hne.
  split; store_simpl; reflexivity.
Qed.

Lemma contribution_idle (s : Store) (id : Z) :
  stateOf s id <> STATE_FUNDED -> stateOf s id <> STATE_DISPUTED -> contribution s id = 0.
Proof.
  intros H3 H6. unfold contribution, counts_as_locked.
  apply Z.eqb_neq in H3, H6. now rewrite H3, H6.
Qed.

Lemma contribution_live (s : Store) (id : Z) :
  stateOf s id = STATE_FUNDED \/ stateOf s id = STATE_DISPUTED ->
  contribution s id = lockedOf s id.
Proof.
  intros H. unfold contribution, counts_as_locked.
  destruct H as [-> | ->]; reflexivity.
Qed.

Lemma total_after_call (s : Store) (e : Env) (c : Call) :
  reachable s -> wf_env e -> wf_call c ->
  totalLocked_spec (step e c s) = totalLocked_spec s + locked_delta e c s.
Proof.
  intros Hr He Hc.
  pose proof (fresh_inv_reachable _ s Hr) as Hfresh.
  unfold step, execute, locked_delta.
  destruct c as [p d | id | id | id | id | id]; cbn in Hc; unfold dispatch, bind.
  - destruct (createOrder p d e s) as [r s' | msg s'] eqn:Hrun; cbn [ret snd]; [| lia].
    destruct (createOrder_ok _ _ _ _ _ _ Hrun) as (-> & Hmax & _ & _ & ->).
    rewrite total_after_create by assumption. lia.
  - rewrite acceptOrder_eq.
    destruct (Z.eqb_spec (stateOf s id) STATE_CREATED) as [Hst | Hst]; cbn [snd]; [| lia].
    destruct (number e <=? deadlineOf s id); cbn [ret snd]; [| lia].
    assert (Hex : 1 <= id <= orderCount s)
      by (apply existing_order_supported; [assumption | assumption | rewrite Hst; discriminate]).
    rewrite (total_change_one s _ id Hex (orderCount_accept e s id)).
    + rewrite !contribution_idle; [lia | rewrite Hst; discriminate | rewrite Hst; discriminate
                                  | store_simpl; discriminate | store_simpl; discriminate].
    + intros i Hi Hne. split; store_simpl; reflexivity.
  - rewrite fundOrder_eq.
    destruct (Z.eqb_spec (stateOf s id) STATE_ACCEPTED) as [Hst | Hst]; cbn [snd]; [| lia].
    destruct (Address_equals (buyerOf s id) (sender e)); cbn [ret snd]; [| lia].
    assert (Hex : 1 <= id <= orderCount s)
      by (apply existing_order_supported; [assumption | assumption | rewrite Hst; discriminate]).
    rewrite (total_change_one s _ id Hex (orderCount_fund s id)).
    + rewrite (contribution_idle s id) by (rewrite Hst; discriminate).
      rewrite contribution_live by (left; store_simpl; reflexivity).
      assert (Hl : lockedOf (fund_writes id s) id = priceOf s id) by (store_simpl; reflexivity).
      lia.
    + intros i Hi Hne. split; store_simpl; reflexivity.
  - rewrite confirmCompletion_eq.
    destruct (Z.eqb_spec (stateOf s id) STATE_FUNDED) as [Hst | Hst]; cbn [snd]; [| lia].
    destruct (Address_equals (buyerOf s id) (sender e)); cbn [ret snd]; [| lia].
    assert (Hex : 1 <= id <= orderCount s)
      by (apply existing_order_supported; [assumption | assumption | rewrite Hst; discriminate]).
    rewrite (total_change_one s _ id Hex (orderCount_release s STATE_COMPLETED id)).
    + rewrite (contribution_live s id) by (left; exact Hst).
      rewrite contribution_idle by (store_simpl; discriminate). lia.
    + intros i Hi Hne. split; store_simpl; reflexivity.
  - rewrite cancelOrder_eq.
    destruct (cancellable (stateOf s id)) eqn:Hst; cbn [snd]; [| lia].
    destruct (is_party e s id); cbn [ret snd]; [| lia].
    assert (Hex : 1 <= id <= orderCount s)
      by (apply existing_order_supported; [assumption | assumption | now apply cancellable_nonzero]).
    rewrite (total_change_one s _ id Hex (orderCount_release s STATE_CANCELLED id)).
    + rewrite (contribution_idle (release_writes STATE_CANCELLED id s))
        by (store_simpl; discriminate).
      pose proof (locked_inv_reachable _ s Hr id Hc) as Hl.
      destruct (Z.eq_dec (lockedOf s id) 0) as [H0 | Hnz].
      * unfold contribution. rewrite H0. destruct (counts_as_locked s id); lia.
      * destruct (Hl Hnz) as [Hlive _]. rewrite (contribution_live s id Hlive). lia.
    + intros i Hi Hne. split; store_simpl; reflexivity.
  - rewrite openDispute_eq.
    destruct (Z.eqb_spec (stateOf s id) STATE_FUNDED) as [Hst | Hst]; cbn [snd]; [| lia].
    destruct (is_party e s id); cbn [ret snd]; [| lia].
    assert (Hex : 1 <= id <= orderCount s)
      by (apply existing_order_supported; [assumption | assumption | rewrite Hst; discriminate]).
    rewrite (total_change_one s _ id Hex (orderCount_dispute s id)).
    + rewrite (contribution_live s id) by (left; exact Hst).
      rewrite contribution_live by (right; store_simpl; reflexivity).
      assert (Hl : lockedOf (dispute_writes id s) id = lockedOf s id) by (store_simpl; reflexivity).
      lia.
    + intros i Hi Hne. split; store_simpl; reflexivity.
Qed.

Lemma getEscrowStats_returns (s s' : Store) (e : Env) (fuel : nat) (t t2 n : Z) :
  reachable s -> orderCount s < U64_MAX -> (Z.to_nat (orderCount s) < fuel)%nat ->
  getEscrowStats fuel e s = Ok (Some (t, t2, n)) s' ->
  t = totalLocked_spec s /\ t2 = t /\ n = orderCount s /\ s' = s.
Proof.
  intros Hr Hcnt Hfuel.
  pose proof (orderCount_range s) as Hrange. unfold is_u64 in Hrange.
  unfold getEscrowStats. unfold bind at 1. unfold load at 1. fold (orderCount s).
  unfold bind at 1.
  rewrite (stats_loop_spec e s (orderCount s));
    [ | intros id Hid; apply (values_inv_reachable _ s Hr id Hid)
      | lia | lia | apply zero_u256
      | replace (orderCount s + 1 - 1) with (orderCount s) by lia; assumption ].
  replace (orderCount s + 1 - 1) with (orderCount s) by lia.
  rewrite Z.add_0_l. fold (totalLocked_spec s).
  destruct (totalLocked_spec s <=? U256_MAX); [| discriminate].
  unfold ret. intros [= <- <- <- <-]. repeat split.
Qed.

(** The total reported by getEscrowStats moves with the calls: a call that
    aborts leaves it; a fundOrder that returns adds the order's price; a
    confirmCompletion or cancelOrder that returns takes the order's locked
    amount off; createOrder, acceptOrder and openDispute leave it. *)
Theorem total_locked_accounting
    (s sa sb : Store) (e e1 e2 : Env) (c : Call) (fuel : nat) (t t2 n t' t2' n' : Z) :
  reachable s -> wf_env e -> wf_call c ->
  orderCount s + 1 < U64_MAX -> (Z.to_nat (orderCount s) + 1 < fuel)%nat ->
  getEscrowStats fuel e1 s = Ok (Some (t, t2, n)) sa ->
  getEscrowStats fuel e2 (step e c s) = Ok (Some (t', t2', n')) sb ->
  t' = t + locked_delta e c s.
Proof.
  intros Hr He Hc Hcnt Hfuel H1 H2.
  pose proof (step_transition e c s He Hc) as Ht.
  assert (Hr' : reachable (step e c s)) by (now apply reach_step).
  assert (Hcnt' : orderCount (step e c s) <= orderCount s + 1)
    by (destruct (transition_count e c s _ Ht) as [-> | [-> _]]; lia).
  pose proof (orderCount_range (step e c s)) as Hrange. unfold is_u64 in Hrange.
  destruct (getEscrowStats_returns s sa e1 fuel t t2 n Hr ltac:(lia) ltac:(lia) H1)
    as (-> & _).
  destruct (getEscrowStats_returns _ sb e2 fuel t' t2' n' Hr' ltac:(lia) ltac:(lia) H2)
    as (-> & _).
  now apply total_after_call.
Qed.

Lemma total_locked_accounting_witness :
  reachable sample_stats /\ wf_env (mkEnv bob 104) /\ wf_call (ConfirmCompletion 2) /\
  orderCount sample_stats + 1 < U64_MAX /\
  (Z.to_nat (orderCount sample_stats) + 1 < 5)%nat /\
  getEscrowStats 5 (mkEnv alice 200) sample_stats = Ok (Some (800, 800, 3)) sample_stats /\
  getEscrowStats 5 (mkEnv alice 201) (step (mkEnv bob 104) (ConfirmCompletion 2) sample_stats)
    = Ok (Some (300, 300, 3)) (step (mkEnv bob 104) (ConfirmCompletion 2) sample_stats) /\
  300 = 800 + locked_delta (mkEnv bob 104) (ConfirmCompletion 2) sample_stats.
Proof.
  assert (He : wf_env (mkEnv bob 104)) by in_range.
  assert (Hc : wf_call (ConfirmCompletion 2)) by in_range.
  assert (Hn : orderCount sample_stats + 1 < U64_MAX) by (vm_compute; reflexivity).
  assert (Hf : (Z.to_nat (orderCount sample_stats) + 1 < 5)%nat)
    by (apply Nat.ltb_lt; vm_compute; reflexivity).
  assert (H1 : getEscrowStats 5 (mkEnv alice 200) sample_stats
               = Ok (Some (800, 800, 3)) sample_stats) by (vm_compute; reflexivity).
  assert (H2 : getEscrowStats 5 (mkEnv alice 201)
                 (step (mkEnv bob 104) (ConfirmCompletion 2) sample_stats)
               = Ok (Some (300, 300, 3))
                   (step (mkEnv bob 104) (ConfirmCompletion 2) sample_stats))
    by (vm_compute; reflexivity).
  split; [apply sample_stats_reachable |]. split; [exact He |]. split; [exact Hc |].
  split; [exact Hn |]. split; [exact Hf |]. split; [exact H1 |]. split; [exact H2 |].
  exact (total_locked_accounting sample_stats _ _ (mkEnv bob 104) (mkEnv alice 200)
           (mkEnv alice 201) (ConfirmCompletion 2) 5 800 800 3 300 300 3
           sample_stats_reachable He Hc Hn Hf H1 H2).
Defined.

(** * A whole purchase *)

Lemma seller_buyer_ptr_ne (id : Z) : sellerPtr id <> buyerPtr id.
Proof.
  unfold sellerPtr, buyerPtr, PTR_SELLER_BASE, PTR_BUYER_BASE.
  rewrite !u16_wrap64. Z.div_mod_to_equations. lia.
Qed.

(** The methods compose into a purchase.  After a createOrder that
    returned, an acceptOrder made no later than the deadline returns, then
    a fundOrder and a confirmCompletion by that same caller return, and
    getOrder shows the order Completed with the creator as seller, the
    acceptor as buyer, the price as given, nothing locked, and the deadline
    and acceptance height as recorded. *)
Theorem purchase_runs_to_completion
    (s s1 : Store) (e1 e2 e3 e4 ev : Env) (p d id : Z) :
  is_u64 (number e1) -> is_u64 d -> is_u64 (number e2) ->
  createOrder p d e1 s = Ok id s1 ->
  number e2 <= number e1 + d ->
  sender e3 = sender e2 -> sender e4 = sender e2 ->
  exists s2 s3 s4,
    acceptOrder id e2 s1 = Ok true s2 /\
    fundOrder id e3 s2 = Ok true s3 /\
    confirmCompletion id e4 s3 = Ok true s4 /\
    getOrder id ev s4 =
      Ok (mkOrderView id (sender e1) (sender e2) p 0 STATE_COMPLETED
            (number e1 + d) (number e2)) s4.
Proof.
  intros Hn1 Hd Hn2 Hcreate Hdl Hs3 Hs4.
  destruct (createOrder_ok _ _ _ _ _ _ Hcreate) as (Hid & Hmax & Hp & Hov & ->).
  destruct (add64_checked (number e1) d Hn1 Hd) as [E2 E2'].
  assert (Hsum : number e1 + d <= U64_MAX).
  { destruct (Z.leb_spec (number e1 + d) U64_MAX); [assumption |].
    cbn [negb] in E2. apply Z.ltb_lt in E2. contradiction. }
  rewrite (E2' Hsum).
  assert (Hu : is_u64 id)
    by (pose proof (orderCount_range s); unfold is_u64 in *; lia).
  assert (Hdsum : toU64 (number e1 + d) = number e1 + d)
    by (apply toU64_small; unfold is_u64 in *; lia).
  pose proof (seller_buyer_ptr_ne id) as Hsb.
  assert (Hbs : buyerPtr id <> sellerPtr id) by congruence.
  clear Hcreate Hid Hov E2 E2'.
  set (s1 := create_writes e1 p id (number e1 + d) s).
  set (s2 := accept_writes e2 id s1).
  set (s3 := fund_writes id s2).
  set (s4 := release_writes STATE_COMPLETED id s3).
  exists s2, s3, s4.
  assert (H1 : stateOf s1 id = STATE_CREATED) by (subst s1; store_simpl; reflexivity).
  assert (H1d : deadlineOf s1 id = number e1 + d) by (subst s1; store_simpl; exact Hdsum).
  assert (H2 : stateOf s2 id = STATE_ACCEPTED) by (subst s2; store_simpl; reflexivity).
  assert (H2b : buyerOf s2 id = sender e2) by (subst s2; store_simpl; reflexivity).
  assert (H3 : stateOf s3 id = STATE_FUNDED) by (subst s3; store_simpl; reflexivity).
  assert (H3b : buyerOf s3 id = sender e2) by (subst s3 s2; store_simpl; reflexivity).
  split; [| split; [| split]].
  - rewrite acceptOrder_eq, H1, H1d. cbn [Z.eqb Pos.eqb STATE_CREATED].
    apply Z.leb_le in Hdl. rewrite Hdl. reflexivity.
  - rewrite fundOrder_eq, H2, H2b, Hs3. unfold Address_equals.
    rewrite !Z.eqb_refl. reflexivity.
  - rewrite confirmCompletion_eq, H3, H3b, Hs4. unfold Address_equals.
    rewrite !Z.eqb_refl. reflexivity.
  - rewrite getOrder_eq. subst s4 s3 s2 s1. f_equal. f_equal.
    + store_simpl. reflexivity.
    + store_simpl. reflexivity.
    + store_simpl. reflexivity.
    + store_simpl. reflexivity.
    + store_simpl. reflexivity.
    + store_simpl. exact Hdsum.
    + store_simpl. now apply toU64_small.
Qed.

Lemma purchase_runs_to_completion_witness :
  is_u64 (number (mkEnv alice 100)) /\ is_u64 10 /\ is_u64 (number (mkEnv bob 110)) /\
  createOrder 500 10 (mkEnv alice 100) deployed = Ok 1 sample_created /\
  number (mkEnv bob 110) <= number (mkEnv alice 100) + 10 /\
  sender (mkEnv bob 111) = sender (mkEnv bob 110) /\
  sender (mkEnv bob 112) = sender (mkEnv bob 110) /\
  exists s2 s3 s4,
    acceptOrder 1 (mkEnv bob 110) sample_created = Ok true s2 /\
    fundOrder 1 (mkEnv bob 111) s2 = Ok true s3 /\
    confirmCompletion 1 (mkEnv bob 112) s3 = Ok true s4 /\
    getOrder 1 (mkEnv alice 200) s4 =
      Ok (mkOrderView 1 (sender (mkEnv alice 100)) (sender (mkEnv bob 110)) 500 0
            STATE_COMPLETED (number (mkEnv alice 100) + 10) (number (mkEnv bob 110))) s4.
Proof.
  assert (Hn1 : is_u64 (number (mkEnv alice 100))) by in_range.
  assert (Hd : is_u64 10) by in_range.
  assert (Hn2 : is_u64 (number (mkEnv bob 110))) by in_range.
  assert (Hc : createOrder 500 10 (mkEnv alice 100) deployed = Ok 1 sample_created)
    by (vm_compute; reflexivity).
  assert (Hdl : number (mkEnv bob 110) <= number (mkEnv alice 100) + 10) by (cbn; lia).
  split; [exact Hn1 |]. split; [exact Hd |]. split; [exact Hn2 |]. split; [exact Hc |].
  split; [exact Hdl |]. split; [reflexivity |]. split; [reflexivity |].
  exact (purchase_runs_to_completion deployed sample_created (mkEnv alice 100)
           (mkEnv bob 110) (mkEnv bob 111) (mkEnv bob 112) (mkEnv alice 200) 500 10 1
           Hn1 Hd Hn2 Hc Hdl eq_refl eq_refl).
Defined.

(** * Long runs of creations *)

Lemma create_step_eq (a : Address) (s : Store) :
  orderCount s < U64_MAX ->
  step (mkEnv a 100) (CreateOrder 500 6) s =
  create_writes (mkEnv a 100) 500 (orderCount s + 1) 106 s.
Proof.
  intros Hlt. unfold step, execute, dispatch. unfold bind at 1.
  rewrite createOrder_eq. cbv zeta. cbn [number].
  destruct (add64_checked (orderCount s) 1 (orderCount_range s)) as [E1 E1'];
    [unfold is_u64, U64_MAX; lia |].
  change (0 <? 500) with true. change (6 <=? 6) with true.
  change (wrap64 (100 + 6) <? 100) with false.
  change (wrap64 (100 + 6)) with 106.
  cbv iota. rewrite E1.
  destruct (Z.leb_spec (orderCount s + 1) U64_MAX) as [Hle | Hgt]; [| lia].
  cbn [negb ret snd]. now rewrite (E1' Hle).
Qed.

Lemma create_step_count (s : Store) :
  orderCount s < U64_MAX ->
  orderCount (step (mkEnv alice 100) (CreateOrder 500 6) s) = orderCount s + 1.
Proof.
  intros Hlt. rewrite create_step_eq by assumption.
  apply orderCount_create. apply next_id_u64. lia.
Qed.

(** The check of the four methods is against the recorded addresses, and
    past 9899 orders a creation can change them: in a store with 9900
    orders where order 1 is Funded, caller 33 creates order 9901, whose
    seller slot is the buyer slot of order 1, and then completes order 1. *)
Example recorded_buyer_replaced_past_ceiling (s : Store) :
  orderCount s = 9900 -> stateOf s 1 = STATE_FUNDED ->
  buyerOf (step (mkEnv 33 100) (CreateOrder 500 6) s) 1 = 33 /\
  confirmCompletion 1 (mkEnv 33 101) (step (mkEnv 33 100) (CreateOrder 500 6) s) =
  Ok true (release_writes STATE_COMPLETED 1 (step (mkEnv 33 100) (CreateOrder 500 6) s)).
Proof.
  intros Hcount Hst.
  rewrite create_step_eq by (rewrite Hcount; unfold U64_MAX; lia).
  rewrite Hcount. change (9900 + 1) with 9901.
  assert (Hb : buyerOf (create_writes (mkEnv 33 100) 500 9901 106 s) 1 = 33)
    by (rewrite buyerOf_create; reflexivity).
  assert (H1 : is_u64 1) by in_range.
  assert (H9 : is_u64 9901) by in_range.
  assert (Hs : stateOf (create_writes (mkEnv 33 100) 500 9901 106 s) 1 = STATE_FUNDED).
  { rewrite stateOf_create by assumption.
    destruct (decide (1 = 9901)) as [Heq | _]; [discriminate Heq | exact Hst]. }
  split; [exact Hb |].
  rewrite confirmCompletion_eq, Hs, Hb. reflexivity.
Qed.

Lemma create_many_count (n : nat) :
  forall s, orderCount s + Z.of_nat n <= U64_MAX ->
  orderCount (create_many n s) = orderCount s + Z.of_nat n.
Proof.
  induction n as [| n IH]; intros s Hle; cbn [create_many].
  - lia.
  - rewrite IH; rewrite create_step_count; lia.
Qed.

Lemma getEscrowStats_at_max (s : Store) :
  orderCount s = U64_MAX ->
  forall fuel e r s', getEscrowStats fuel e s <> Ok (Some r) s'.
Proof.
  intros Hmax fuel e r s' Hrun. revert Hrun.
  unfold getEscrowStats. unfold bind at 1. unfold load at 1. fold (orderCount s).
  rewrite Hmax. unfold bind at 1.
  destruct (stats_loop fuel U64_MAX 1 0 e s) as [r0 s0 | msg s0] eqn:Hloop;
    [| discriminate].
  assert (H1 : is_u64 1) by in_range.
  rewrite (stats_loop_at_max e fuel 1 0 s H1 r0 s0 Hloop).
  unfold ret. discriminate.
Qed.

(** C2, where the code falls short of it.  After 2^64-1 creations, a store
    the contract can reach, the counter is 2^64-1; the loop variable of
    getEscrowStats, a 64-bit value, then wraps to zero instead of passing
    the counter, and the scan returns no triple, whatever the number of
    iterations it is given. *)
Theorem getEscrowStats_never_returns_at_full_counter :
  reachable full_counter_store /\
  orderCount full_counter_store = U64_MAX /\
  forall fuel e r s', getEscrowStats fuel e full_counter_store <> Ok (Some r) s'.
Proof.
  assert (Hcount : orderCount full_counter_store = U64_MAX).
  { unfold full_counter_store. rewrite create_many_count.
    - rewrite orderCount_deployed, Z2Nat.id by (unfold U64_MAX; lia). lia.
    - rewrite orderCount_deployed, Z2Nat.id by (unfold U64_MAX; lia). lia. }
  split; [| split].
  - apply (reachable_weaken nonzero_sender). unfold full_counter_store.
    apply create_many_reachable, reach_refl.
  - exact Hcount.
  - now apply getEscrowStats_at_max.
Qed.
